(** * Timeline DAO of ambianic-edge: paging over the stored event logs

    Shallow embedding of [src/ambianic/webapp/server/timeline_dao.py]:
    [_remove_timeline] and [get_timeline].  The file system, the YAML
    decoder and the logger are what the function talks to; they appear
    here as explicit state (a finite map of directories, each a finite
    map of files) and as an explicit list of emitted log records. *)

From Stdlib Require Import ZArith List String Ascii Lia OrderedTypeEx.
From stdpp Require Import gmap strings list sorting.

Local Open Scope Z_scope.

(** ** Python values *)

(** An event record is whatever one item of the YAML sequence decodes
    to.  [get_timeline] never looks inside it. *)
Definition event := string.

(** [str()] of a [datetime] object; only ever passed to the logger. *)
Definition datetime := string.

(** What a caller may pass as [page]. *)
Inductive pyobj :=
| PyInt (z : Z)
| PyBool (b : bool)
| PyStr (s : string)
| PyNone.

(** [isinstance(o, int)]: [bool] is a subclass of [int]. *)
Definition isinstance_int (o : pyobj) : bool :=
  match o with
  | PyInt _ | PyBool _ => true
  | PyStr _ | PyNone => false
  end.

(** The integer a Python [int] (or [bool]) stands for in arithmetic. *)
Definition int_value (o : pyobj) : Z :=
  match o with
  | PyInt z => z
  | PyBool true => 1
  | _ => 0
  end.

Inductive yaml_error :=
| ReaderError
| ScannerError
| ParserError
| ComposerError
| ConstructorError.

Inductive exn :=
| AssertionError
| TypeError
| OSError
| YAMLError (e : yaml_error).

(** How a call ends: [return l] or an exception reaching the caller. *)
Inductive outcome :=
| Returns (l : list event)
| Raises (e : exn).

(** ** Python slices

    [l[start:stop:step]] for a non-zero [step], as [list.__getitem__]
    computes it: both bounds are adjusted to the length, the number of
    items is derived from them, and item [i] is [l[start + i*step]]. *)
Definition adjust_index (len step i : Z) : Z :=
  if i <? 0 then
    if i + len <? 0 then (if step <? 0 then -1 else 0) else i + len
  else if len <=? i then (if step <? 0 then len - 1 else len)
  else i.

Definition slice_length (start stop step : Z) : Z :=
  if step <? 0 then
    if stop <? start then (start - stop - 1) / (- step) + 1 else 0
  else
    if start <? stop then (stop - start - 1) / step + 1 else 0.

Definition py_slice {A} (l : list A) (start stop step : Z) : list A :=
  let len := Z.of_nat (length l) in
  let start' := adjust_index len step start in
  let stop' := adjust_index len step stop in
  omap (λ i : nat, l !! Z.to_nat (start' + Z.of_nat i * step))
       (seq 0 (Z.to_nat (slice_length start' stop' step))).

(** ** The store *)

(** What [yaml.safe_load] makes of a file's content. *)
Inductive document :=
| DocSeq (l : list event)   (* a YAML sequence: a Python list *)
| DocNull                   (* empty document: None *)
| DocMapping                (* a dict *)
| DocScalar.                (* a str, int, float or bool *)

Inductive load_result :=
| Loaded (d : document)
| LoadRaises (e : yaml_error).

(** A directory entry, seen through the three calls made on it:
    [file_path.open()], [yaml.safe_load(pf)] and [os.remove(file_path)]. *)
Record file := {
  can_open : bool;          (* false: open() raises OSError *)
  safe_load : load_result;
  can_remove : bool         (* false: os.remove() raises *)
}.

(** What scanning a directory for a glob does: it works, it hits a
    [PermissionError] (which [pathlib] swallows, yielding nothing), or
    it hits another [OSError] (which [pathlib] lets through). *)
Inductive scan_outcome :=
| ScanOk
| ScanDenied
| ScanFails.

Record directory := {
  scan : scan_outcome;
  entries : gmap string file
}.

(** Paths for which [os.path.exists] is true, with what is there. *)
Abbreviation filesystem := (gmap string directory).

(** ** The logger *)

Inductive log_record :=
| WarnInvalidDataDir (data_dir : option string)
| DebugFetchingBefore (parsed : datetime)
| WarnUnparsableBefore (before_datetime : string)
| DebugMostRecent
| DebugFetchingPage (page page_size page_start page_end : Z)
| ExcUnreadableTimeline (file_name : string)
| ExcErrorRemoving (file_name : string).

Inductive log_level := DEBUG | WARNING | ERROR.

(** [log.exception] logs at level ERROR. *)
Definition level (r : log_record) : log_level :=
  match r with
  | WarnInvalidDataDir _ | WarnUnparsableBefore _ => WARNING
  | DebugFetchingBefore _ | DebugMostRecent | DebugFetchingPage _ _ _ _ => DEBUG
  | ExcUnreadableTimeline _ | ExcErrorRemoving _ => ERROR
  end.

Definition is_warning (r : log_record) : bool :=
  match level r with WARNING => true | _ => false end.

(** ** [_remove_timeline] *)

(** [os.remove] inside [try ... except Exception]: the file goes, or the
    failure is logged and nothing changes. *)
Definition _remove_timeline (file_path : string) (d : gmap string file)
  : gmap string file * list log_record :=
  match d !! file_path with
  | Some f =>
      if can_remove f then (delete file_path d, [])
      else (d, [ExcErrorRemoving file_path])
  | None => (d, [ExcErrorRemoving file_path])
  end.

(** ** [get_timeline] *)

Definition page_size : Z := 5.

(** The local variables the [for] loop carries from file to file. *)
Record walk_state := {
  page_start_position : Z;
  page_end_position : Z;
  page_count : Z;
  events_queue : list event
}.

Inductive step_result :=
| Continue (st : walk_state)
| Return (l : list event).

(** [timeline_events += events_queue]: a list is extended in place,
    anything else [yaml.safe_load] can return raises [TypeError]. *)
Definition iadd (d : document) (events_queue : list event)
  : option (list event) :=
  match d with
  | DocSeq timeline_events => Some (timeline_events ++ events_queue)
  | DocNull | DocMapping | DocScalar => None
  end.

(** The loop body after the [try] block (lines 93-117). *)
Definition process_events (timeline_events : list event) (st : walk_state)
  : step_result :=
  let events_len := Z.of_nat (length timeline_events) in
  if events_len <? page_end_position st then
    let pages_mod := events_len mod page_size in
    let events_queue' :=
      if 0 <? pages_mod then py_slice timeline_events 0 pages_mod 1 else [] in
    let start' :=
      if 0 <? pages_mod then page_start_position st + pages_mod
      else page_start_position st in
    let end' :=
      if 0 <? pages_mod then page_end_position st + pages_mod
      else page_end_position st in
    Continue {| page_start_position := start' - events_len;
                page_end_position := end' - events_len;
                page_count := page_count st + 1;
                events_queue := events_queue' |}
  else if events_len <=? page_start_position st then Return []
  else Return (py_slice timeline_events
                 (-1 * page_start_position st - 1)
                 (-1 * page_end_position st - 1) (-1)).

(** The exception classes of the [except] clause. *)
Definition caught (e : yaml_error) : bool :=
  match e with
  | ReaderError | ScannerError | ComposerError | ConstructorError => true
  | ParserError => false
  end.

Inductive visit_result :=
| Next (st : walk_state)
| Stop (o : outcome).

(** One iteration of [for file_path in files] (lines 77-117).  A path
    that is no longer there, or that cannot be opened (a directory, a
    file without read permission), makes [file_path.open()] raise. *)
Definition visit (file_path : string) (st : walk_state) (d : gmap string file)
  : visit_result * gmap string file * list log_record :=
  match d !! file_path with
  | None => (Stop (Raises OSError), d, [])
  | Some f =>
      if can_open f then
        match safe_load f with
        | LoadRaises e =>
            if caught e then
              let '(d', lg) := _remove_timeline file_path d in
              (Next st, d', ExcUnreadableTimeline file_path :: lg)
            else (Stop (Raises (YAMLError e)), d, [])
        | Loaded doc =>
            match iadd doc (events_queue st) with
            | None => (Stop (Raises TypeError), d, [])
            | Some timeline_events =>
                match process_events timeline_events
                        {| page_start_position := page_start_position st;
                           page_end_position := page_end_position st;
                           page_count := page_count st;
                           events_queue := [] |} with
                | Continue st' => (Next st', d, [])
                | Return l => (Stop (Returns l), d, [])
                end
            end
        end
      else (Stop (Raises OSError), d, [])
  end.

(** The whole loop: it ends with the state to finish from, or early. *)
Fixpoint walk (files : list string) (st : walk_state) (d : gmap string file)
  : visit_result * gmap string file * list log_record :=
  match files with
  | [] => (Next st, d, [])
  | file_path :: files' =>
      match visit file_path st d with
      | (Next st', d', lg) =>
          let '(r, d'', lg') := walk files' st' d' in (r, d'', lg ++ lg')
      | (Stop o, d', lg) => (Stop o, d', lg)
      end
  end.

(** Lines 119-125, after the loop. *)
Definition finish (page : Z) (st : walk_state) : list event :=
  if page_count st + 1 <? page then [] else events_queue st.

(** Paths compare as their names do: character by character. *)
Definition path_le (a b : string) : Prop := String.leb a b = true.

Global Instance path_le_dec a b : Decision (path_le a b).
Proof. unfold path_le. apply _. Defined.

Definition timeline_pattern : string := "timeline-event-log.yaml".

(** The names that [Path(data_dir).glob("./timeline-event-log.yaml*")]
    yields when the scan goes through, sorted: those that start with the
    fixed part of the pattern, in ascending order. *)
Definition glob_sorted (d : gmap string file) : list string :=
  merge_sort path_le
    (filter (λ n, String.prefix timeline_pattern n = true) (map_to_list d).*1).

(** Lines 70-71: [None] stands for the [OSError] that the scan lets
    through. *)
Definition sorted_glob (dir : directory) : option (list string) :=
  match scan dir with
  | ScanOk => Some (glob_sorted (entries dir))
  | ScanDenied => Some []
  | ScanFails => None
  end.

(** Lines 57-58 and 73-74: the loop variables before the first file. *)
Definition initial_state (page : Z) : walk_state :=
  let page_start_position := (page - 1) * page_size in
  {| page_start_position := page_start_position;
     page_end_position := page_start_position + page_size;
     page_count := 1;
     events_queue := [] |}.

Section get_timeline.

(** [datetime.fromisoformat]: [None] stands for [ValueError]. *)
Variable fromisoformat : string → option datetime.

(** Lines 47-56 and 60-61: the cursor is parsed and logged. *)
Definition parse_before (before_datetime : option string)
  : option datetime * list log_record :=
  match before_datetime with
  | None | Some EmptyString => (None, [])
  | Some s =>
      match fromisoformat s with
      | Some dt => (Some dt, [DebugFetchingBefore dt])
      | None => (None, [WarnUnparsableBefore s])
      end
  end.

(** Lines 44-125: the call once [data_dir] is known to exist. *)
Definition get_timeline_in (before_datetime : option string) (page : pyobj)
    (p : string) (dir : directory) (fs : filesystem)
  : outcome * filesystem * list log_record :=
  if negb (isinstance_int page) then (Raises AssertionError, fs, [])
  else if negb (0 <? int_value page) then (Raises AssertionError, fs, [])
  else
    let page := int_value page in
    let '(parsed_datetime, lg0) := parse_before before_datetime in
    let page_start_position := (page - 1) * page_size in
    let page_end_position := page_start_position + page_size in
    let lg1 :=
      lg0 ++ match parsed_datetime with
             | Some _ => []
             | None => [DebugMostRecent]
             end
          ++ [DebugFetchingPage page page_size
                page_start_position page_end_position] in
    match sorted_glob dir with
    | None => (Raises OSError, fs, lg1)
    | Some files =>
        let '(r, d', lg2) := walk files (initial_state page) (entries dir) in
        let fs' := <[p := {| scan := scan dir; entries := d' |}]> fs in
        match r with
        | Stop o => (o, fs', lg1 ++ lg2)
        | Next st' => (Returns (finish page st'), fs', lg1 ++ lg2)
        end
    end.

Definition get_timeline (before_datetime : option string) (page : pyobj)
    (data_dir : option string) (fs : filesystem)
  : outcome * filesystem * list log_record :=
  let invalid := (Returns [], fs, [WarnInvalidDataDir data_dir]) in
  match data_dir with
  | None => invalid
  | Some p =>
      match fs !! p with
      | None => invalid
      | Some dir => get_timeline_in before_datetime page p dir fs
      end
  end.

End get_timeline.

(** * Notions the statements are written with *)

Definition result (r : outcome * filesystem * list log_record) : outcome :=
  r.1.1.
Definition store (r : outcome * filesystem * list log_record) : filesystem :=
  r.1.2.
Definition logged (r : outcome * filesystem * list log_record)
  : list log_record := r.2.

(** The loop over the decoded segments alone. *)
Fixpoint paginate (segs : list (list event)) (st : walk_state)
  : visit_result :=
  match segs with
  | [] => Next st
  | l :: segs' =>
      match process_events (l ++ events_queue st)
              {| page_start_position := page_start_position st;
                 page_end_position := page_end_position st;
                 page_count := page_count st;
                 events_queue := [] |} with
      | Continue st' => paginate segs' st'
      | Return r => Stop (Returns r)
      end
  end.

Definition holds_sequence (d : gmap string file) (name : string)
    (l : list event) : Prop :=
  ∃ f, d !! name = Some f ∧ can_open f = true ∧ safe_load f = Loaded (DocSeq l).

(** The records as the walk lines them up: each segment in front of the
    segments walked before it. *)
Definition walked_history (segs : list (list event)) : list event :=
  concat (reverse segs).

(** Page [p] of a history read from its end in blocks of [page_size]. *)
Definition page_of (p : Z) (history : list event) : list event :=
  take (Z.to_nat page_size)
    (drop (Z.to_nat ((p - 1) * page_size)) (reverse history)).

(** What the loop variables say after the files making up [h] ([k] of
    them): the window is a whole number of pages down from where it
    started, by as much as the records of [h] that were passed over,
    and the queue is what is left of [h] in front of those. *)
Definition walk_inv (p : Z) (h : list event) (k : nat) (st : walk_state)
  : Prop :=
  ∃ (j : Z) (passed : list event),
    0 ≤ j ∧
    page_start_position st = page_size * j ∧
    page_end_position st = page_size * j + page_size ∧
    h = events_queue st ++ passed ∧
    Z.of_nat (length passed) = page_size * (p - 1 - j) ∧
    Z.of_nat (length (events_queue st)) < page_size ∧
    page_count st = 1 + Z.of_nat k.

Definition matches_pattern (name : string) : Prop :=
  String.prefix timeline_pattern name = true.

(** The file [name] was found unreadable and removed. *)
Definition removed_as_unreadable (d : gmap string file) (name : string)
    (lg : list log_record) : Prop :=
  ∃ f e,
    d !! name = Some f ∧ can_open f = true ∧
    safe_load f = LoadRaises e ∧ caught e = true ∧ can_remove f = true ∧
    ExcUnreadableTimeline name ∈ lg.

(** The number of pages [N] records fill: [ceil(N / page_size)]. *)
Definition last_page (N : Z) : Z := (N + page_size - 1) / page_size.

(** The window moved down by the whole merged length, as the
    specification words it. *)
Definition shifted_by_length (timeline_events : list event)
    (st st' : walk_state) : Prop :=
  let segLen := Z.of_nat (length timeline_events) in
  page_start_position st' = page_start_position st - segLen ∧
  page_end_position st' = page_end_position st - segLen.

(** The full history as the specification has it: the segments one
    after the other in ascending order of their names. *)
Definition segment_records (d : gmap string file) (name : string)
  : list event :=
  match d !! name with
  | Some f =>
      match safe_load f with
      | Loaded (DocSeq l) => l
      | _ => []
      end
  | None => []
  end.

Definition logical_sequence (d : gmap string file) : list event :=
  concat (segment_records d <$> glob_sorted d).

(** A page is in newest-first order of a history when its records
    appear in it as they do in the history read backwards. *)
Definition newest_first (history page : list event) : Prop :=
  sublist page (reverse history).

(** [page] is a positive integer. *)
Definition positive_int (page : pyobj) : Prop :=
  match page with
  | PyInt z => 0 < z
  | PyBool b => b = true
  | PyStr _ | PyNone => False
  end.

(** [data_dir is None or not os.path.exists(data_dir)]. *)
Definition invalid_data_dir (data_dir : option string) (fs : filesystem)
  : Prop :=
  match data_dir with
  | None => True
  | Some p => fs !! p = None
  end.

(** The log records that tell what became of [before_datetime]. *)
Definition about_cursor (r : log_record) : bool :=
  match r with
  | DebugFetchingBefore _ | WarnUnparsableBefore _ | DebugMostRecent => true
  | _ => false
  end.

(** Between [fs] and [fs'] nothing has changed except that files of
    the directory [data_dir] may be gone, each of them a file matching
    the pattern that was opened, failed to decode with one of the four
    listed errors, and was logged as unreadable in [lg]. *)
Definition only_unreadable_removed (data_dir : option string)
    (fs fs' : filesystem) (lg : list log_record) : Prop :=
  ∀ q,
    match fs !! q with
    | None => fs' !! q = None
    | Some dir =>
        ∃ dir',
          fs' !! q = Some dir' ∧ scan dir' = scan dir ∧
          ∀ name,
            entries dir' !! name = entries dir !! name
            ∨ (entries dir' !! name = None ∧ data_dir = Some q
               ∧ matches_pattern name
               ∧ removed_as_unreadable (entries dir) name lg)
    end.

(** What the loop variables keep from file to file whatever the files
    hold: the window is five wide, starts at a multiple of five that is
    not negative, and the queue is shorter than a page. *)
Definition window_ok (st : walk_state) : Prop :=
  ∃ j : Z,
    0 ≤ j ∧
    page_start_position st = page_size * j ∧
    page_end_position st = page_size * j + page_size ∧
    Z.of_nat (length (events_queue st)) < page_size.

(** The records a call hands back; none when it raises. *)
Definition returned (r : outcome * filesystem * list log_record)
  : list event :=
  match result r with
  | Returns l => l
  | Raises _ => []
  end.

(** A file that the loop would log and remove: it opens, and decoding
    it raises one of the errors the [except] clause lists. *)
Definition unreadable (f : file) : bool :=
  can_open f &&
  match safe_load f with
  | LoadRaises e => caught e
  | Loaded _ => false
  end.

Definition unreadable_at (d : gmap string file) (name : string) : bool :=
  match d !! name with
  | Some f => unreadable f
  | None => false
  end.

(** The directory without its unreadable files. *)
Definition without_unreadable (d : gmap string file) : gmap string file :=
  filter (λ nf, unreadable nf.2 = false) d.

(** The same store with the entries of one directory replaced. *)
Definition with_entries (p : string) (dir : directory)
    (d : gmap string file) (fs : filesystem) : filesystem :=
  <[p := {| scan := scan dir; entries := d |}]> fs.

(** The store with the unreadable files of every directory taken
    out. *)
Definition without_unreadable_files (fs : filesystem) : filesystem :=
  (λ dir, {| scan := scan dir; entries := without_unreadable (entries dir) |})
    <$> fs.

(** * Worked stores *)

Definition readable (l : list event) : file :=
  {| can_open := true; safe_load := Loaded (DocSeq l); can_remove := true |}.

(** A file that opens and whose decoding ends as [r]. *)
Definition decoding_as (r : load_result) : file :=
  {| can_open := true; safe_load := r; can_remove := true |}.

Definition r1_r7 : list event :=
  ["r1"; "r2"; "r3"; "r4"; "r5"; "r6"; "r7"]%string.
Definition a1_a7 : list event :=
  ["a1"; "a2"; "a3"; "a4"; "a5"; "a6"; "a7"]%string.
Definition b1_b7 : list event :=
  ["b1"; "b2"; "b3"; "b4"; "b5"; "b6"; "b7"]%string.

Definition data : string := "data".
Definition log_yaml : string := "timeline-event-log.yaml".
Definition log_yaml_1 : string := "timeline-event-log.yaml.1".

Definition store_of (sc : scan_outcome) (d : gmap string file) : filesystem :=
  {[ data := {| scan := sc; entries := d |} ]}.

(** One segment holding r1..r7. *)
Definition one_segment : filesystem :=
  store_of ScanOk {[ log_yaml := readable r1_r7 ]}.

(** Two segments; [log_yaml] sorts before [log_yaml_1]. *)
Definition two_segments : filesystem :=
  store_of ScanOk
    (<[ log_yaml := readable a1_a7 ]> {[ log_yaml_1 := readable b1_b7 ]}).

(** An empty segment file: [yaml.safe_load] gives [None]. *)
Definition empty_segment : filesystem :=
  store_of ScanOk {[ log_yaml := decoding_as (Loaded DocNull) ]}.

(** A segment cut off in the middle of a flow sequence. *)
Definition truncated_segment : filesystem :=
  store_of ScanOk {[ log_yaml := decoding_as (LoadRaises ParserError) ]}.

(** A directory that exists and cannot be read. *)
Definition unreadable_dir : filesystem :=
  store_of ScanDenied {[ log_yaml := readable r1_r7 ]}.

(** A cursor parser to run the examples with; none of them passes a
    cursor. *)
Definition no_iso : string → option datetime := λ _, None.

(** A store whose first segment is unreadable: the first call removes
    it and returns the page of the second segment, and so does the
    second call, which finds the file gone. *)
Definition with_corrupt_segment : filesystem :=
  store_of ScanOk
    (<[ log_yaml := decoding_as (LoadRaises ScannerError) ]>
       {[ log_yaml_1 := readable b1_b7 ]}).

(** The one-segment store with a file next to the segment that the
    pattern does not match. *)
Definition with_stray_file : filesystem :=
  store_of ScanOk
    (<[ "notes.txt"%string := decoding_as (Loaded DocMapping) ]>
       {[ log_yaml := readable r1_r7 ]}).

(** A readable segment listed first, and after it a segment cut off in
    the middle of a flow sequence. *)
Definition truncated_second_segment : filesystem :=
  store_of ScanOk
    (<[ log_yaml := readable a1_a7 ]>
       {[ log_yaml_1 := decoding_as (LoadRaises ParserError) ]}).

(** A directory that holds no file matching the pattern. *)
Definition no_segment : filesystem :=
  store_of ScanOk {[ "notes.txt"%string := decoding_as (Loaded DocMapping) ]}.

(** * Slices in closed form *)

Section slices.
Context {A : Type}.
Implicit Types l : list A.

Lemma omap_seq_ext (f g : nat → option A) (c : nat) :
  (∀ i : nat, (i < c)%nat → f i = g i) →
  omap f (seq 0 c) = omap g (seq 0 c).
Proof.
  intros Hfg. apply list_omap_ext, Forall2_same_length_lookup_2; [done|].
  intros i x y Hx Hy.
  apply lookup_seq in Hx as [-> Hi]. apply lookup_seq in Hy as [-> _].
  by apply Hfg.
Qed.

Lemma omap_lookup_seq l (a c : nat) :
  omap (λ i : nat, l !! (a + i)%nat) (seq 0 c) = take c (drop a l).
Proof.
  induction c as [|c IH]; [by rewrite take_0|].
  rewrite seq_S, omap_app, IH. simpl.
  destruct (l !! (a + c)%nat) as [x|] eqn:Hx.
  - symmetry. rewrite (take_S_r _ _ x); [done|]. by rewrite lookup_drop.
  - apply lookup_ge_None in Hx.
    rewrite app_nil_r, !take_ge; [done|rewrite length_drop; lia..].
Qed.

(** [l[0:m]] is the first [m] items. *)
Lemma py_slice_prefix l (m : Z) :
  0 ≤ m → py_slice l 0 m 1 = take (Z.to_nat m) l.
Proof.
  intros Hm. unfold py_slice, adjust_index, slice_length. simpl.
  set (n := Z.of_nat (length l)).
  assert (0 ≤ n) by lia.
  replace (if n <=? 0 then n else 0) with 0
    by (destruct (Z.leb_spec n 0); lia).
  destruct (Z.ltb_spec m 0); [lia|].
  set (stop := if n <=? m then n else m).
  assert (Hstop : stop = Z.min n m)
    by (unfold stop; destruct (Z.leb_spec n m); lia).
  replace (if 0 <? stop then (stop - 0 - 1) / 1 + 1 else 0) with stop.
  2:{ destruct (Z.ltb_spec 0 stop); [rewrite Z.div_1_r|]; lia. }
  rewrite (omap_seq_ext _ (λ i : nat, l !! (0 + i)%nat)).
  - rewrite omap_lookup_seq, drop_0.
    rewrite Hstop, Z2Nat.inj_min. unfold n. rewrite Nat2Z.id.
    rewrite Nat.min_comm, <-take_take.
    by rewrite (take_ge l (length l)).
  - intros i _. f_equal. lia.
Qed.

(** [l[-s-1:-e-1:-1]] reads the window [s, e) of the list taken back
    to front. *)
Lemma py_slice_backwards l (s e : Z) :
  0 ≤ s ≤ e →
  py_slice l (-1 * s - 1) (-1 * e - 1) (-1)
  = take (Z.to_nat (e - s)) (drop (Z.to_nat s) (reverse l)).
Proof.
  intros Hse. unfold py_slice, adjust_index, slice_length. simpl.
  remember (Z.of_nat (length l)) as n eqn:Hn.
  assert (0 ≤ n) by lia.
  destruct (Z.ltb_spec (-1 * s - 1) 0); [|lia].
  destruct (Z.ltb_spec (-1 * e - 1) 0); [|lia].
  destruct (Z.ltb_spec (-1 * s - 1 + n) 0) as [Hs|Hs].
  - (* the window starts beyond the list *)
    destruct (Z.ltb_spec (-1 * e - 1 + n) 0); [|lia].
    simpl. rewrite drop_ge, take_nil; [done|]. rewrite length_reverse. lia.
  - set (stop := if -1 * e - 1 + n <? 0 then -1 else -1 * e - 1 + n).
    assert (Hstop : stop = Z.max (-1) (n - e - 1))
      by (unfold stop; destruct (Z.ltb_spec (-1 * e - 1 + n) 0); lia).
    destruct (Z.ltb_spec stop (-1 * s - 1 + n)).
    2:{ by replace (e - s) with 0 by lia. }
    replace (- -1) with 1 by lia. rewrite Z.div_1_r.
    set (c := Z.to_nat (-1 * s - 1 + n - stop - 1 + 1)).
    transitivity (take c (drop (Z.to_nat s) (reverse l))).
    + rewrite <-omap_lookup_seq.
      apply omap_seq_ext. intros i Hi.
      rewrite reverse_lookup by lia. f_equal. lia.
    + rewrite <-(take_ge (drop (Z.to_nat s) (reverse l)) (length l - Z.to_nat s))
        by (rewrite length_drop, length_reverse; lia).
      rewrite !take_take. f_equal. lia.
Qed.
End slices.

(** * The loop body *)

(** A merged list shorter than the window end: the loop goes on.  The
    first [len mod 5] items are kept for the next file and the window
    moves down by the rest, [len - len mod 5]. *)
Lemma process_events_short (timeline_events : list event) (st : walk_state) :
  let len := Z.of_nat (length timeline_events) in
  len < page_end_position st →
  process_events timeline_events st
  = Continue {| page_start_position :=
                  page_start_position st - (len - len mod page_size);
                page_end_position :=
                  page_end_position st - (len - len mod page_size);
                page_count := page_count st + 1;
                events_queue :=
                  take (Z.to_nat (len mod page_size)) timeline_events |}.
Proof.
  intros len Hlen. unfold process_events. fold len.
  destruct (Z.ltb_spec len (page_end_position st)); [|lia].
  assert (0 ≤ len `mod` page_size < page_size)
    by (apply Z.mod_pos_bound; unfold page_size; lia).
  destruct (Z.ltb_spec 0 (len `mod` page_size)) as [Hm|Hm].
  - rewrite py_slice_prefix by lia. do 2 f_equal; lia.
  - replace (len `mod` page_size) with 0 by lia. simpl.
    do 2 f_equal; lia.
Qed.

(** A merged list that reaches the window end: the window, counted from
    the back of the list, is returned back to front. *)
Lemma process_events_full (timeline_events : list event) (st : walk_state) :
  0 ≤ page_start_position st ≤ page_end_position st →
  page_end_position st ≤ Z.of_nat (length timeline_events) →
  process_events timeline_events st
  = Return (take (Z.to_nat (page_end_position st - page_start_position st))
              (drop (Z.to_nat (page_start_position st))
                 (reverse timeline_events))).
Proof.
  intros Hse Hlen. unfold process_events.
  destruct (Z.ltb_spec (Z.of_nat (length timeline_events))
              (page_end_position st)); [lia|].
  destruct (Z.leb_spec (Z.of_nat (length timeline_events))
              (page_start_position st)).
  - rewrite drop_ge, take_nil; [done|]. rewrite length_reverse. lia.
  - by rewrite py_slice_backwards.
Qed.

(** * Stores in which every listed file decodes to a sequence *)

Lemma walk_paginate (d : gmap string file) files segs st :
  Forall2 (holds_sequence d) files segs →
  walk files st d = (paginate segs st, d, []).
Proof.
  intros Hfs. revert st.
  induction Hfs as [|name l files segs (f & Hf & Hopen & Hload) _ IH];
    intros st; [done|].
  simpl. unfold visit. rewrite Hf, Hopen, Hload. simpl.
  destruct (process_events _ _); [|done].
  by rewrite IH.
Qed.

Lemma walk_inv_init (p : Z) :
  1 ≤ p → walk_inv p [] 0 (initial_state p).
Proof.
  intros Hp. exists (p - 1), []. unfold initial_state, page_size. simpl.
  repeat split; lia.
Qed.

Lemma walk_inv_short p h k st (l : list event) :
  walk_inv p h k st →
  Z.of_nat (length (l ++ events_queue st)) < page_end_position st →
  ∃ st',
    process_events (l ++ events_queue st)
      {| page_start_position := page_start_position st;
         page_end_position := page_end_position st;
         page_count := page_count st;
         events_queue := [] |} = Continue st'
    ∧ walk_inv p (l ++ h) (S k) st'.
Proof.
  intros (j & passed & Hj & Hs & He & Hh & Hpassed & Hq & Hk) Hlen.
  eexists. split; [by apply process_events_short|].
  remember (l ++ events_queue st) as te eqn:Hte.
  remember (Z.of_nat (length te)) as n eqn:Hn.
  assert (Hmod : 0 ≤ n `mod` page_size < page_size)
    by (apply Z.mod_pos_bound; unfold page_size; lia).
  pose proof (Z_div_mod_eq_full n page_size) as Hdiv.
  unfold page_size in *.
  exists (j - n `div` 5), (drop (Z.to_nat (n `mod` 5)) te ++ passed).
  unfold page_size. simpl. repeat split.
  - lia.
  - lia.
  - lia.
  - rewrite Hh, Hte.
    by rewrite (assoc_L (++)), (assoc_L (++) (take _ _)), take_drop.
  - rewrite length_app, length_drop. lia.
  - rewrite length_take. lia.
  - lia.
Qed.

Lemma walk_inv_full p h k st (l newer : list event) :
  walk_inv p h k st →
  page_end_position st ≤ Z.of_nat (length (l ++ events_queue st)) →
  process_events (l ++ events_queue st)
    {| page_start_position := page_start_position st;
       page_end_position := page_end_position st;
       page_count := page_count st;
       events_queue := [] |}
  = Return (page_of p (newer ++ l ++ h))
  ∧ page_size * p ≤ Z.of_nat (length (l ++ h)).
Proof.
  intros (j & passed & Hj & Hs & He & Hh & Hpassed & Hq & Hk) Hlen.
  set (te := l ++ events_queue st) in *.
  assert (Hte : l ++ h = te ++ passed)
    by (by rewrite Hh; unfold te; rewrite (assoc_L (++))).
  unfold page_size in *. split.
  2:{ rewrite Hte, length_app. lia. }
  rewrite process_events_full by (simpl; lia). simpl.
  f_equal. unfold page_of, page_size.
  rewrite Hte, !reverse_app, <-(assoc_L (++)).
  replace (Z.to_nat ((p - 1) * 5))
    with (length (reverse passed) + Z.to_nat (page_start_position st))%nat
    by (rewrite length_reverse; lia).
  rewrite drop_app_add, drop_app_le by (rewrite length_reverse; lia).
  rewrite take_app_le by (rewrite length_drop, length_reverse; lia).
  f_equal. lia.
Qed.

(** The loop over decoded segments, from any point of the walk: it
    returns page [p] of the walked history as soon as that history
    holds [5p] records, and otherwise runs to the end of the files. *)
Lemma paginate_inv p segs : ∀ h k st,
  walk_inv p h k st →
  let history := walked_history segs ++ h in
  (page_size * p ≤ Z.of_nat (length history) →
     paginate segs st = Stop (Returns (page_of p history)))
  ∧ (Z.of_nat (length history) < page_size * p →
     ∃ st', paginate segs st = Next st'
            ∧ walk_inv p history (k + length segs) st').
Proof.
  unfold walked_history.
  induction segs as [|l segs IH]; intros h k st Hinv; simpl.
  - split.
    + intros Hlen.
      destruct Hinv as (j & passed & Hj & Hs & He & Hh & Hpassed & Hq & Hk).
      rewrite Hh, length_app in Hlen. unfold page_size in *. lia.
    + intros _. exists st. by rewrite Nat.add_0_r.
  - rewrite reverse_cons, concat_app. simpl.
    rewrite app_nil_r, <-(assoc_L (++)).
    destruct (Z.lt_ge_cases (Z.of_nat (length (l ++ events_queue st)))
                (page_end_position st)) as [Hshort|Hfull].
    + destruct (walk_inv_short p h k st l Hinv Hshort) as (st' & -> & Hinv').
      replace (k + S (length segs))%nat with (S k + length segs)%nat by lia.
      by apply IH.
    + destruct (walk_inv_full p h k st l (concat (reverse segs)) Hinv Hfull)
        as [-> Hlen].
      split; [done|].
      intros Hlt. rewrite length_app in Hlt. lia.
Qed.

(** * The listing *)

Lemma path_le_alt (a b : string) :
  path_le a b ↔ String_as_OT.lt a b ∨ a = b.
Proof.
  unfold path_le, String.leb.
  rewrite <-String_as_OT.cmp_lt, <-String_as_OT.cmp_eq.
  unfold String_as_OT.cmp. destruct (String.compare a b); intuition congruence.
Qed.

Global Instance path_le_trans : Transitive path_le.
Proof.
  intros a b c. rewrite !path_le_alt.
  intros [Hab| ->] [Hbc| ->]; eauto using String_as_OT.lt_trans.
Qed.

Global Instance path_le_antisym : AntiSymm (=) path_le.
Proof. intros a b. apply String.leb_antisym. Qed.

Global Instance path_le_total : Total path_le.
Proof. intros a b. apply String.leb_total. Qed.

Lemma elem_of_glob_sorted (d : gmap string file) (name : string) :
  name ∈ glob_sorted d ↔ matches_pattern name ∧ is_Some (d !! name).
Proof.
  unfold glob_sorted. rewrite merge_sort_Permutation, list_elem_of_filter.
  rewrite list_elem_of_fmap. unfold matches_pattern. split.
  - intros [? ([n f] & -> & Hin)]. split; [done|].
    apply elem_of_map_to_list in Hin. by exists f.
  - intros [? [f Hf]]. split; [done|].
    exists (name, f). split; [done|]. by apply elem_of_map_to_list.
Qed.

Lemma NoDup_glob_sorted (d : gmap string file) : NoDup (glob_sorted d).
Proof.
  unfold glob_sorted. rewrite merge_sort_Permutation.
  apply NoDup_filter, NoDup_fst_map_to_list.
Qed.

Lemma StronglySorted_glob_sorted (d : gmap string file) :
  StronglySorted path_le (glob_sorted d).
Proof. apply StronglySorted_merge_sort; apply _. Qed.

Lemma StronglySorted_filter_keep {A} (R : relation A) (P : A → Prop)
    `{∀ x, Decision (P x)} (l : list A) :
  StronglySorted R l → StronglySorted R (filter P l).
Proof.
  induction 1 as [|x l Hl IH Hx]; [constructor|].
  rewrite filter_cons. case_decide; [|done].
  constructor; [done|].
  apply Forall_forall. intros y [_ Hy]%list_elem_of_filter.
  by eapply Forall_forall in Hx.
Qed.

(** Listing a directory from which files have gone gives the old
    listing without them. *)
Lemma glob_sorted_filter (d d' : gmap string file) (P : string → Prop)
    `{∀ x, Decision (P x)} :
  (∀ name, is_Some (d' !! name) ↔ is_Some (d !! name) ∧ P name) →
  glob_sorted d' = filter P (glob_sorted d).
Proof.
  intros Hdom. apply (StronglySorted_unique path_le).
  - apply StronglySorted_glob_sorted.
  - apply StronglySorted_filter_keep, StronglySorted_glob_sorted.
  - apply NoDup_Permutation.
    + apply NoDup_glob_sorted.
    + apply NoDup_filter, NoDup_glob_sorted.
    + intros name.
      rewrite list_elem_of_filter, !elem_of_glob_sorted, Hdom. tauto.
Qed.

(** A directory holding one matching file lists just that file. *)
Lemma glob_sorted_singleton (name : string) (f : file) :
  matches_pattern name → glob_sorted {[ name := f ]} = [name].
Proof.
  intros Hm. unfold glob_sorted.
  rewrite map_to_list_singleton. simpl.
  rewrite filter_cons, filter_nil. by rewrite decide_True.
Qed.

(** * Whole calls *)

Lemma insert_same_directory (fs : filesystem) p dir :
  fs !! p = Some dir →
  <[p := {| scan := scan dir; entries := entries dir |}]> fs = fs.
Proof. intros Hp. apply insert_id. by destruct dir. Qed.

(** What the queue amounts to when the walk runs out of files. *)
Lemma walk_inv_queue p h k st :
  walk_inv p h k st →
  events_queue st = take (Z.to_nat (Z.of_nat (length h) `mod` page_size)) h.
Proof.
  intros (j & passed & Hj & Hs & He & Hh & Hpassed & Hq & Hk).
  rewrite Hh at 2. rewrite Hh, length_app, Nat2Z.inj_add, Hpassed.
  rewrite Z.mul_comm, Z_mod_plus_full.
  rewrite Z.mod_small by lia.
  by rewrite Nat2Z.id, take_app_length.
Qed.

Section readable_store.
Variable fromisoformat : string → option datetime.

(** A call on a directory in which every listed file decodes to a
    sequence.  With at least [5 * page] records it returns that page
    of the walked history read from its end.  With fewer, it returns
    the [N mod 5] leading records of the history, in stored order,
    unless [page] exceeds the number of files by more than two. *)
Theorem get_timeline_readable before_datetime (page : Z) p dir
    (fs : filesystem) (segs : list (list event)) :
  fs !! p = Some dir →
  scan dir = ScanOk →
  1 ≤ page →
  Forall2 (holds_sequence (entries dir)) (glob_sorted (entries dir)) segs →
  let r := get_timeline fromisoformat before_datetime (PyInt page) (Some p) fs in
  let history := walked_history segs in
  let N := Z.of_nat (length history) in
  store r = fs ∧
  result r =
    Returns (if page_size * page <=? N then page_of page history
             else if Z.of_nat (length segs) + 2 <? page then []
             else take (Z.to_nat (N `mod` page_size)) history).
Proof.
  intros Hp Hscan Hpage Hsegs. unfold get_timeline, get_timeline_in. simpl.
  rewrite Hp. simpl.
  destruct (Z.ltb_spec 0 page); [simpl|lia].
  destruct (parse_before fromisoformat before_datetime) as [parsed lg0].
  unfold sorted_glob. rewrite Hscan, (walk_paginate _ _ _ _ Hsegs).
  rewrite <-Hscan, (insert_same_directory _ _ _ Hp).
  destruct (paginate_inv page segs [] 0%nat _ (walk_inv_init page Hpage))
    as [Hfull Hshort].
  rewrite app_nil_r in Hfull, Hshort.
  destruct (Z.leb_spec (page_size * page)
              (Z.of_nat (length (walked_history segs)))) as [Hle|Hlt].
  - by rewrite (Hfull Hle).
  - destruct (Hshort Hlt) as (st' & -> & Hinv).
    split; [done|]. unfold result, finish. simpl. f_equal.
    rewrite (walk_inv_queue _ _ _ _ Hinv).
    destruct Hinv as (j & passed & _ & _ & _ & _ & _ & _ & ->).
    replace (1 + Z.of_nat (0 + length segs) + 1)
      with (Z.of_nat (length segs) + 2) by lia.
    done.
Qed.
End readable_store.

(** * What the walk does to the directory *)

Lemma visit_frame file_path st (d : gmap string file) r d' lg :
  visit file_path st d = (r, d', lg) →
  d' = d ∨ (d' = delete file_path d ∧ removed_as_unreadable d file_path lg).
Proof.
  unfold visit, _remove_timeline.
  destruct (d !! file_path) as [f|] eqn:Hf; [|naive_solver].
  destruct (can_open f) eqn:Hopen; [|naive_solver].
  destruct (safe_load f) as [doc|e] eqn:Hload.
  - destruct (iadd doc (events_queue st)); [|naive_solver].
    destruct (process_events _ _); naive_solver.
  - destruct (caught e) eqn:He; [|naive_solver].
    destruct (can_remove f) eqn:Hrm; [|naive_solver].
    intros [= <- <- <-]. right. split; [done|].
    exists f, e. repeat split; try done. left.
Qed.

Lemma walk_frame files : ∀ st (d : gmap string file) r d' lg,
  walk files st d = (r, d', lg) →
  ∀ name,
    d' !! name = d !! name
    ∨ (d' !! name = None ∧ name ∈ files ∧ removed_as_unreadable d name lg).
Proof.
  induction files as [|file_path files IH]; intros st d r d' lg; simpl.
  { intros [= <- <- <-] name. by left. }
  destruct (visit file_path st d) as [[v d1] lg1] eqn:Hvisit.
  apply visit_frame in Hvisit as Hd1.
  assert (Hfirst : ∀ name,
    d1 !! name = d !! name ∨
    (d1 !! name = None ∧ name = file_path
     ∧ removed_as_unreadable d name lg1)).
  { intros name. destruct Hd1 as [->|[-> Hrm]]; [by left|].
    destruct (decide (name = file_path)) as [->|Hne].
    - right. by rewrite lookup_delete_eq.
    - left. by rewrite lookup_delete_ne. }
  destruct v as [st1|o].
  - destruct (walk files st1 d1) as [[r2 d2] lg2] eqn:Hwalk.
    intros [= <- <- <-] name.
    destruct (IH _ _ _ _ _ Hwalk name) as [Heq|(Hnone & Hin & Hrm)].
    + rewrite Heq.
      destruct (Hfirst name) as [?|(? & -> & f & e & ? & ? & ? & ? & ? & ?)];
        [by left|right].
      split; [done|]. split; [left|].
      exists f, e. repeat split; try done. apply elem_of_app. by left.
    + right. split; [done|]. split; [by right|].
      destruct Hrm as (f & e & Hf & ? & ? & ? & ? & ?).
      destruct (Hfirst name) as [Hsame|(Hgone & _)]; [|congruence].
      exists f, e. rewrite <-Hsame. repeat split; try done.
      apply elem_of_app. by right.
  - intros [= <- <- <-] name.
    destruct (Hfirst name) as [?|(? & -> & ?)]; [by left|right].
    split; [done|]. split; [left|done].
Qed.

(** One iteration looks at the directory only through the file it
    opens, so it goes the same way in any directory that agrees on that
    file, provided it removes nothing. *)
Lemma visit_unchanged file_path st (d d2 : gmap string file) r lg :
  visit file_path st d = (r, d, lg) →
  is_Some (d !! file_path) →
  d2 !! file_path = d !! file_path →
  visit file_path st d2 = (r, d2, lg).
Proof.
  unfold visit, _remove_timeline. intros Hv [f Hf] Hsame.
  rewrite Hsame. rewrite Hf in Hv |- *.
  destruct (can_open f); [|by inv Hv].
  destruct (safe_load f) as [doc|e].
  - destruct (iadd doc (events_queue st)); [|by inv Hv].
    destruct (process_events _ _); by inv Hv.
  - destruct (caught e); [|by inv Hv].
    destruct (can_remove f); [|by inv Hv].
    injection Hv as _ Hdel _.
    assert (delete file_path d !! file_path = d !! file_path) as Habs
      by (by rewrite Hdel).
    rewrite lookup_delete_eq, Hf in Habs. done.
Qed.

(** Walking again over what the first walk left behind ends the same
    way and removes nothing more. *)
Lemma walk_again files : ∀ st (d : gmap string file) r d' lg,
  NoDup files →
  (∀ name, name ∈ files → is_Some (d !! name)) →
  walk files st d = (r, d', lg) →
  ∃ lg', walk (filter (λ name, is_Some (d' !! name)) files) st d'
         = (r, d', lg').
Proof.
  induction files as [|file_path files IH]; intros st d r d' lg Hnd Hdom; simpl.
  { intros [= <- <- <-]. by exists []. }
  apply NoDup_cons in Hnd as [Hfresh Hnd].
  destruct (visit file_path st d) as [[v d1] lg1] eqn:Hvisit.
  assert (Hhere : is_Some (d !! file_path)) by (apply Hdom; left).
  destruct (visit_frame _ _ _ _ _ _ Hvisit) as [->|[-> Hrm]].
  - (* nothing removed by this iteration *)
    destruct v as [st1|o].
    + destruct (walk files st1 d) as [[r2 d2] lg2] eqn:Hwalk.
      intros [= <- <- <-].
      assert (Hkept : d2 !! file_path = d !! file_path).
      { destruct (walk_frame _ _ _ _ _ _ Hwalk file_path)
          as [?|(_ & ? & _)]; done. }
      rewrite filter_cons, decide_True by (by rewrite Hkept).
      simpl. rewrite (visit_unchanged _ _ _ d2 _ _ Hvisit Hhere Hkept).
      destruct (IH st1 d r2 d2 lg2 Hnd) as [lg' ->]; [|done|by eexists].
      intros name Hin. apply Hdom. by right.
    + intros [= <- <- <-].
      rewrite filter_cons, decide_True by done.
      simpl. rewrite Hvisit. by eexists.
  - (* the file was unreadable and is gone *)
    destruct v as [st1|o].
    2:{ exfalso. revert Hvisit. unfold visit, _remove_timeline.
        destruct Hrm as (f & e & -> & -> & -> & -> & -> & _). done. }
    assert (st1 = st) as ->.
    { revert Hvisit. unfold visit, _remove_timeline.
      destruct Hrm as (f & e & -> & -> & -> & -> & -> & _). congruence. }
    destruct (walk files st (delete file_path d)) as [[r2 d2] lg2] eqn:Hwalk.
    intros [= <- <- <-].
    assert (Hgone : d2 !! file_path = None).
    { destruct (walk_frame _ _ _ _ _ _ Hwalk file_path)
        as [->|(? & _)]; [apply lookup_delete_eq|done]. }
    rewrite filter_cons, decide_False by (rewrite Hgone; by intros [??]).
    destruct (IH st (delete file_path d) r2 d2 lg2 Hnd) as [lg' ->];
      [|done|by eexists].
    intros name Hin. rewrite lookup_delete_ne by (by intros ->).
    apply Hdom. by right.
Qed.

(** * Pages of a single segment *)

(** A directory that lists one file, holding the sequence [l]: a page
    that [l] fills is cut from the back of [l], newest first; a page
    that [l] does not fill is, up to page 3, the [N mod 5] oldest
    records in stored order, and empty from page 4 on. *)
Lemma get_timeline_single_segment fromisoformat before_datetime (page : Z)
    p dir (fs : filesystem) name (l : list event) :
  fs !! p = Some dir →
  scan dir = ScanOk →
  glob_sorted (entries dir) = [name] →
  holds_sequence (entries dir) name l →
  1 ≤ page →
  let N := Z.of_nat (length l) in
  result (get_timeline fromisoformat before_datetime (PyInt page) (Some p) fs)
  = Returns (if page_size * page <=? N then
               take (Z.to_nat page_size)
                 (drop (Z.to_nat ((page - 1) * page_size)) (reverse l))
             else if 3 <? page then []
             else take (Z.to_nat (N `mod` page_size)) l).
Proof.
  intros Hp Hscan Hglob Hl Hpage.
  destruct (get_timeline_readable fromisoformat before_datetime page p dir fs [l])
    as [_ ->]; try done.
  { rewrite Hglob. by repeat constructor. }
  unfold walked_history, page_of. simpl. by rewrite app_nil_r.
Qed.

(** A page past the last one of a store in which every listed file
    decodes to a sequence: what is returned is the leftover queue, the
    [N mod 5] leading records, unless [page] exceeds the number of
    files by more than two. *)
Lemma get_timeline_past_the_end fromisoformat before_datetime (page : Z)
    p dir (fs : filesystem) (segs : list (list event)) :
  fs !! p = Some dir →
  scan dir = ScanOk →
  Forall2 (holds_sequence (entries dir)) (glob_sorted (entries dir)) segs →
  let N := Z.of_nat (length (walked_history segs)) in
  1 ≤ page →
  last_page N < page →
  result (get_timeline fromisoformat before_datetime (PyInt page) (Some p) fs)
  = Returns (if Z.of_nat (length segs) + 2 <? page then []
             else take (Z.to_nat (N `mod` page_size)) (walked_history segs)).
Proof.
  intros Hp Hscan Hsegs N Hpage Hlast.
  destruct (get_timeline_readable fromisoformat before_datetime page p dir fs segs)
    as [_ ->]; try done.
  fold N. unfold last_page, page_size in *.
  destruct (Z.leb_spec (5 * page) N); [|done].
  exfalso. revert Hlast. Z.div_mod_to_equations. lia.
Qed.

(** C1, on the code: one segment holds r1..r7, so two pages exist, and
    page 3 is past the end.  The call does not return the empty
    sequence: the loop leaves [page_count] at 2, the check after the
    loop compares 3 < 3, and the queue r1, r2 is returned. *)
Theorem exhaustion_r1_r7_page_3 :
  last_page (Z.of_nat (length r1_r7)) < 3 ∧
  get_timeline no_iso None (PyInt 3) (Some data) one_segment
  = (Returns ["r1"; "r2"]%string, one_segment,
     [DebugMostRecent; DebugFetchingPage 3 5 10 15]).
Proof. split; [by vm_compute|]. by vm_compute. Qed.

(** C2, on the code: for one segment holding r1..r7, page 1 is
    r7, r6, r5, r4, r3, newest first, but page 2, the last one, comes
    back as r1, r2: the queue is returned in stored order, oldest
    first.  A segment of three records gives page 1 in stored order
    too. *)
Theorem single_segment_r1_r7_pages :
  result (get_timeline no_iso None (PyInt 1) (Some data) one_segment)
  = Returns ["r7"; "r6"; "r5"; "r4"; "r3"]%string ∧
  result (get_timeline no_iso None (PyInt 2) (Some data) one_segment)
  = Returns ["r1"; "r2"]%string ∧
  result (get_timeline no_iso None (PyInt 1) (Some data)
            (store_of ScanOk {[ log_yaml := readable ["r1"; "r2"; "r3"]%string ]}))
  = Returns ["r1"; "r2"; "r3"]%string.
Proof. repeat split; by vm_compute. Qed.

(** * Unreadable segments *)

(** A file whose decoding raises one of the four listed errors is
    logged, removed when it can be, and skipped: the loop variables are
    the same for the next file. *)
Lemma visit_caught name st (d : gmap string file) f e :
  d !! name = Some f →
  can_open f = true →
  safe_load f = LoadRaises e →
  caught e = true →
  visit name st d
  = (Next st,
     if can_remove f then delete name d else d,
     ExcUnreadableTimeline name
       :: (if can_remove f then [] else [ExcErrorRemoving name])).
Proof.
  intros Hf Hopen Hload He. unfold visit, _remove_timeline.
  rewrite Hf, Hopen, Hload, He. by destruct (can_remove f).
Qed.

(** C5, on the code: a segment that does not decode to a sequence, and
    a segment whose decoding raises [ParserError], both end the call
    with that exception; neither file is removed and nothing is
    logged about them. *)
Theorem undecodable_segment_raises :
  get_timeline no_iso None (PyInt 1) (Some data) empty_segment
  = (Raises TypeError, empty_segment,
     [DebugMostRecent; DebugFetchingPage 1 5 0 5]) ∧
  get_timeline no_iso None (PyInt 1) (Some data) truncated_segment
  = (Raises (YAMLError ParserError), truncated_segment,
     [DebugMostRecent; DebugFetchingPage 1 5 0 5]).
Proof. split; by vm_compute. Qed.

(** * The window between two files *)

(** C4 as stated fails: page 2 over seven merged records.  The window
    [5, 10) becomes [0, 5), not [-2, 3). *)
Lemma window_shift_counterexample :
  Z.of_nat (length r1_r7) < page_end_position (initial_state 2) ∧
  process_events r1_r7 (initial_state 2)
  = Continue {| page_start_position := 0;
                page_end_position := 5;
                page_count := 2;
                events_queue := ["r1"; "r2"]%string |} ∧
  ¬ shifted_by_length r1_r7 (initial_state 2)
      {| page_start_position := 0;
         page_end_position := 5;
         page_count := 2;
         events_queue := ["r1"; "r2"]%string |}.
Proof.
  split; [by vm_compute|]. split; [by vm_compute|].
  unfold shifted_by_length. simpl. lia.
Qed.

(** C4, amended: when the merged list is shorter than the window end,
    the iteration goes on to the next file with the window moved down
    by the merged length less its remainder modulo the page size, the
    first [len mod page_size] merged records in the queue, and the
    directory as it was. *)
Theorem short_segment_carries_remainder name st (d : gmap string file)
    (seg : list event) :
  holds_sequence d name seg →
  let merged := seg ++ events_queue st in
  let len := Z.of_nat (length merged) in
  len < page_end_position st →
  visit name st d
  = (Next {| page_start_position :=
               page_start_position st - (len - len `mod` page_size);
             page_end_position :=
               page_end_position st - (len - len `mod` page_size);
             page_count := page_count st + 1;
             events_queue := take (Z.to_nat (len `mod` page_size)) merged |},
     d, []).
Proof.
  intros (f & Hf & Hopen & Hload) merged len Hlen.
  unfold visit. rewrite Hf, Hopen, Hload. simpl.
  by rewrite process_events_short.
Qed.

Lemma short_segment_carries_remainder_witness :
  holds_sequence {[ log_yaml := readable r1_r7 ]} log_yaml r1_r7 ∧
  Z.of_nat (length (r1_r7 ++ events_queue (initial_state 2)))
    < page_end_position (initial_state 2) ∧
  visit log_yaml (initial_state 2) {[ log_yaml := readable r1_r7 ]}
  = (Next {| page_start_position := 0;
             page_end_position := 5;
             page_count := 2;
             events_queue := ["r1"; "r2"]%string |},
     {[ log_yaml := readable r1_r7 ]}, []).
Proof.
  assert (Hseq : holds_sequence {[ log_yaml := readable r1_r7 ]} log_yaml r1_r7)
    by (exists (readable r1_r7); repeat split).
  assert (Hlen : Z.of_nat (length (r1_r7 ++ events_queue (initial_state 2)))
                 < page_end_position (initial_state 2))
    by (vm_compute; reflexivity).
  split; [exact Hseq|]. split; [exact Hlen|].
  exact (short_segment_carries_remainder log_yaml (initial_state 2)
           {[ log_yaml := readable r1_r7 ]} r1_r7 Hseq Hlen).
Defined.

(** * Pages across two files *)

(** An iteration on a file that decodes to a sequence hands the loop
    body the file's records followed by the queue. *)
Lemma visit_sequence name st (d : gmap string file) (seg : list event) :
  holds_sequence d name seg →
  visit name st d
  = (match process_events (seg ++ events_queue st)
             {| page_start_position := page_start_position st;
                page_end_position := page_end_position st;
                page_count := page_count st;
                events_queue := [] |} with
     | Continue st' => Next st'
     | Return l => Stop (Returns l)
     end, d, []).
Proof.
  intros (f & Hf & Hopen & Hload). unfold visit.
  rewrite Hf, Hopen, Hload. simpl. by destruct (process_events _ _).
Qed.

Lemma reverse_walked_history (segs : list (list event)) :
  reverse (walked_history segs) = concat (reverse <$> segs).
Proof.
  unfold walked_history. induction segs as [|l segs IH]; [done|].
  rewrite reverse_cons, concat_app, reverse_app. simpl.
  by rewrite app_nil_r, IH.
Qed.

Lemma length_walked_history (segs : list (list event)) :
  length (walked_history segs) = length (concat segs).
Proof.
  unfold walked_history. induction segs as [|l segs IH]; [done|].
  rewrite reverse_cons, concat_app. simpl.
  rewrite !length_app, IH. simpl. lia.
Qed.

Lemma filter_sublist_mono {A} (P : A → Prop) `{∀ x, Decision (P x)}
    (l1 l2 : list A) :
  sublist l1 l2 → sublist (filter P l1) (filter P l2).
Proof.
  induction 1 as [|x l1 l2 _ IH|x l1 l2 _ IH]; [constructor| |].
  - rewrite !filter_cons. case_decide; [by constructor|done].
  - rewrite (filter_cons _ x l2). case_decide; [by constructor|done].
Qed.

(** C3 as stated fails: two segments of seven records, page 2.  The two
    records carried from the first file are put behind the second
    file's records, and the page starts with them: a2, a1, b7, b6, b5,
    which is not the order of the ascending-name history read
    backwards. *)
Lemma remainder_merge_counterexample :
  iadd (DocSeq b1_b7) ["a1"; "a2"]%string
    = Some (b1_b7 ++ ["a1"; "a2"]%string) ∧
  iadd (DocSeq b1_b7) ["a1"; "a2"]%string
    ≠ Some (["a1"; "a2"]%string ++ b1_b7) ∧
  result (get_timeline no_iso None (PyInt 2) (Some data) two_segments)
    = Returns ["a2"; "a1"; "b7"; "b6"; "b5"]%string ∧
  logical_sequence
    (<[ log_yaml := readable a1_a7 ]> {[ log_yaml_1 := readable b1_b7 ]})
    = a1_a7 ++ b1_b7 ∧
  ¬ newest_first (a1_a7 ++ b1_b7) ["a2"; "a1"; "b7"; "b6"; "b5"]%string.
Proof.
  split; [done|]. split; [done|].
  split; [by vm_compute|]. split; [by vm_compute|].
  unfold newest_first. intros Hsub.
  apply (filter_sublist_mono (λ x, x = "a2"%string ∨ x = "b7"%string)) in Hsub.
  vm_compute in Hsub.
  repeat match goal with H : sublist _ _ |- _ => inv H end.
Qed.

(** C3, amended: an iteration puts the carried queue behind the records
    of the file it has just decoded, and a page that the store fills
    is cut from the segments each read backwards, the first listed
    segment first. *)
Theorem remainder_follows_segment fromisoformat before_datetime (page : Z)
    p dir (fs : filesystem) (segs : list (list event)) :
  fs !! p = Some dir →
  scan dir = ScanOk →
  1 ≤ page →
  Forall2 (holds_sequence (entries dir)) (glob_sorted (entries dir)) segs →
  page_size * page ≤ Z.of_nat (length (concat segs)) →
  (∀ name seg st, holds_sequence (entries dir) name seg →
     visit name st (entries dir)
     = (match process_events (seg ++ events_queue st)
                {| page_start_position := page_start_position st;
                   page_end_position := page_end_position st;
                   page_count := page_count st;
                   events_queue := [] |} with
        | Continue st' => Next st'
        | Return l => Stop (Returns l)
        end, entries dir, [])) ∧
  result (get_timeline fromisoformat before_datetime (PyInt page) (Some p) fs)
  = Returns (take (Z.to_nat page_size)
               (drop (Z.to_nat ((page - 1) * page_size))
                  (concat (reverse <$> segs)))).
Proof.
  intros Hp Hscan Hpage Hsegs Hfull. split.
  { intros name seg st Hseg. by apply visit_sequence. }
  destruct (get_timeline_readable fromisoformat before_datetime page p dir fs segs)
    as [_ ->]; try done.
  rewrite length_walked_history.
  destruct (Z.leb_spec (page_size * page) (Z.of_nat (length (concat segs))));
    [|lia].
  unfold page_of. by rewrite reverse_walked_history.
Qed.

Lemma remainder_follows_segment_witness :
  result (get_timeline no_iso None (PyInt 2) (Some data) two_segments)
  = Returns (take (Z.to_nat page_size)
               (drop (Z.to_nat ((2 - 1) * page_size))
                  (concat (reverse <$> [a1_a7; b1_b7])))).
Proof.
  refine (proj2 (remainder_follows_segment no_iso None 2 data
    {| scan := ScanOk;
       entries := <[ log_yaml := readable a1_a7 ]>
                    {[ log_yaml_1 := readable b1_b7 ]} |}
    two_segments [a1_a7; b1_b7] _ _ _ _ _)).
  - reflexivity.
  - reflexivity.
  - lia.
  - change (Forall2
      (holds_sequence (<[ log_yaml := readable a1_a7 ]>
                         {[ log_yaml_1 := readable b1_b7 ]}))
      (glob_sorted (<[ log_yaml := readable a1_a7 ]>
                      {[ log_yaml_1 := readable b1_b7 ]}))
      [a1_a7; b1_b7]).
    replace (glob_sorted (<[ log_yaml := readable a1_a7 ]>
                            {[ log_yaml_1 := readable b1_b7 ]}))
      with [log_yaml; log_yaml_1] by (vm_compute; reflexivity).
    repeat constructor.
    + exists (readable a1_a7). repeat split.
    + exists (readable b1_b7). repeat split.
  - vm_compute. discriminate.
Defined.

(** * The guards at the top of the call *)

Lemma positive_int_asserts (page : pyobj) :
  positive_int page ↔ isinstance_int page = true ∧ 0 < int_value page.
Proof.
  destruct page as [z|[]|s|]; simpl; intuition (try discriminate; try lia).
Qed.

(** The scan error that [pathlib] lets through is not handled either:
    it ends the call. *)
Lemma scan_error_reaches_caller :
  result (get_timeline no_iso None (PyInt 1) (Some data)
            (store_of ScanFails {[ log_yaml := readable r1_r7 ]}))
  = Raises OSError.
Proof. by vm_compute. Qed.

(** C6 as stated fails: a directory that exists and cannot be scanned.
    The call returns the empty sequence, but the only records logged
    are the two debug lines: no warning. *)
Lemma unreadable_dir_counterexample :
  get_timeline no_iso None (PyInt 1) (Some data) unreadable_dir
  = (Returns [], unreadable_dir,
     [DebugMostRecent; DebugFetchingPage 1 5 0 5]) ∧
  existsb is_warning
    (logged (get_timeline no_iso None (PyInt 1) (Some data) unreadable_dir))
  = false.
Proof. split; by vm_compute. Qed.

(** C6, amended: when [data_dir] is [None] or does not exist, the call
    returns the empty sequence, logs the warning and touches nothing,
    whatever [page] and the cursor are; when it exists and the scan is
    denied, a call with a valid page returns the empty sequence and
    touches nothing, and the only warning it can log is the one about
    the cursor. *)
Theorem invalid_data_dir_returns_empty fromisoformat before_datetime
    (page : pyobj) (data_dir : option string) (fs : filesystem) :
  let r := get_timeline fromisoformat before_datetime page data_dir fs in
  (invalid_data_dir data_dir fs →
     r = (Returns [], fs, [WarnInvalidDataDir data_dir])) ∧
  (∀ p dir,
     data_dir = Some p → fs !! p = Some dir → scan dir = ScanDenied →
     positive_int page →
     result r = Returns [] ∧ store r = fs ∧
     ∀ rec, rec ∈ logged r → level rec = WARNING →
       ∃ s, before_datetime = Some s ∧ rec = WarnUnparsableBefore s).
Proof.
  intros r. subst r. split.
  - unfold invalid_data_dir, get_timeline.
    destruct data_dir as [p|]; [|done]. by intros ->.
  - intros p dir -> Hp Hscan [Hint Hpos]%positive_int_asserts.
    unfold get_timeline, get_timeline_in, sorted_glob.
    rewrite Hp, Hint, Hscan. simpl.
    destruct (Z.ltb_spec 0 (int_value page)); [simpl|lia].
    rewrite <-Hscan, (insert_same_directory _ _ _ Hp).
    unfold result, store, logged, finish, parse_before.
    destruct before_datetime as [[|c s]|]; simpl.
    + split; [by destruct (_ <? _)|]. split; [done|].
      intros rec Hrec Hlevel. set_unfold. by destruct Hrec as [->|[->|[]]].
    + destruct (fromisoformat (String c s)) as [dt|]; simpl.
      * split; [by destruct (_ <? _)|]. split; [done|].
        intros rec Hrec Hlevel. set_unfold.
        by destruct Hrec as [->|[->|[]]].
      * split; [by destruct (_ <? _)|]. split; [done|].
        intros rec Hrec Hlevel. set_unfold.
        destruct Hrec as [->|[->|[->|[]]]]; try done. by eexists.
    + split; [by destruct (_ <? _)|]. split; [done|].
      intros rec Hrec Hlevel. set_unfold. by destruct Hrec as [->|[->|[]]].
Qed.

Lemma invalid_data_dir_returns_empty_witness :
  (invalid_data_dir (Some "nowhere"%string) one_segment ∧
   get_timeline no_iso None (PyInt 1) (Some "nowhere"%string) one_segment
   = (Returns [], one_segment, [WarnInvalidDataDir (Some "nowhere"%string)])) ∧
  (positive_int (PyInt 1) ∧
   result (get_timeline no_iso None (PyInt 1) (Some data) unreadable_dir)
   = Returns []).
Proof.
  split.
  - assert (H : invalid_data_dir (Some "nowhere"%string) one_segment)
      by reflexivity.
    split; [exact H|].
    exact (proj1 (invalid_data_dir_returns_empty no_iso None (PyInt 1)
                    (Some "nowhere"%string) one_segment) H).
  - assert (H : positive_int (PyInt 1)) by (simpl; lia).
    split; [exact H|].
    exact (proj1 (proj2 (invalid_data_dir_returns_empty no_iso None (PyInt 1)
                           (Some data) unreadable_dir)
                    data {| scan := ScanDenied;
                            entries := {[ log_yaml := readable r1_r7 ]} |}
                    eq_refl eq_refl eq_refl H)).
Defined.

(** C7 as stated fails: page 0 with no data directory, and page -1 with
    a data directory that does not exist, are not rejected; both calls
    return the empty sequence. *)
Lemma invalid_page_counterexample :
  ¬ positive_int (PyInt 0) ∧
  get_timeline no_iso None (PyInt 0) None one_segment
  = (Returns [], one_segment, [WarnInvalidDataDir None]) ∧
  ¬ positive_int (PyInt (-1)) ∧
  get_timeline no_iso None (PyInt (-1)) (Some "nowhere"%string) one_segment
  = (Returns [], one_segment, [WarnInvalidDataDir (Some "nowhere"%string)]).
Proof. simpl. repeat split; (lia || by vm_compute). Qed.

(** C7, amended: when [data_dir] exists, a [page] that is not a
    positive integer ends the call with [AssertionError] before
    anything is listed, removed or logged. *)
Theorem invalid_page_rejected fromisoformat before_datetime (page : pyobj)
    p dir (fs : filesystem) :
  fs !! p = Some dir →
  ¬ positive_int page →
  get_timeline fromisoformat before_datetime page (Some p) fs
  = (Raises AssertionError, fs, []).
Proof.
  intros Hp Hpage. unfold get_timeline, get_timeline_in. rewrite Hp.
  rewrite positive_int_asserts in Hpage.
  destruct (isinstance_int page); [simpl|done].
  destruct (Z.ltb_spec 0 (int_value page)); [|done].
  destruct Hpage. done.
Qed.

Lemma invalid_page_rejected_witness :
  ¬ positive_int (PyInt 0) ∧
  get_timeline no_iso None (PyInt 0) (Some data) one_segment
  = (Raises AssertionError, one_segment, []).
Proof.
  assert (H : ¬ positive_int (PyInt 0)) by (simpl; lia).
  split; [exact H|].
  exact (invalid_page_rejected no_iso None (PyInt 0) data
           {| scan := ScanOk; entries := {[ log_yaml := readable r1_r7 ]} |}
           one_segment eq_refl H).
Defined.

(** * The cursor *)

(** Everything [parse_before] and the line after it log is about the
    cursor. *)
Lemma parse_before_logs fromisoformat before_datetime :
  filter (λ x, about_cursor x = false)
    ((parse_before fromisoformat before_datetime).2
       ++ match (parse_before fromisoformat before_datetime).1 with
          | Some _ => []
          | None => [DebugMostRecent]
          end) = [].
Proof.
  unfold parse_before.
  destruct before_datetime as [[|c s]|]; [done| |done].
  by destruct (fromisoformat (String c s)).
Qed.

(** The cursor decides nothing but what [parse_before] logs. *)
Lemma get_timeline_in_cursor fromisoformat before_datetime page p dir
    (fs : filesystem) :
  let r := get_timeline_in fromisoformat before_datetime page p dir fs in
  let r0 := get_timeline_in fromisoformat None page p dir fs in
  result r = result r0 ∧ store r = store r0 ∧
  filter (λ x, about_cursor x = false) (logged r)
  = filter (λ x, about_cursor x = false) (logged r0).
Proof.
  unfold get_timeline_in.
  destruct (negb (isinstance_int page)); [done|].
  destruct (negb (0 <? int_value page)); [done|].
  pose proof (parse_before_logs fromisoformat before_datetime) as Hlg.
  pose proof (parse_before_logs fromisoformat None) as Hlg0.
  destruct (parse_before fromisoformat before_datetime) as [parsed lg].
  destruct (parse_before fromisoformat None) as [parsed0 lg0].
  cbn [fst snd] in Hlg, Hlg0. cbv zeta.
  rewrite filter_app in Hlg, Hlg0.
  apply app_eq_nil in Hlg as [Hlg Hrecent], Hlg0 as [Hlg0 Hrecent0].
  destruct (sorted_glob dir) as [files|].
  - destruct (walk files _ (entries dir)) as [[v d'] lg2].
    destruct v; unfold result, store, logged; cbn [fst snd];
      (split; [done|]; split; [done|]);
      by rewrite !filter_app, Hlg, Hlg0, Hrecent, Hrecent0.
  - unfold result, store, logged; cbn [fst snd].
    split; [done|]. split; [done|].
    by rewrite !filter_app, Hlg, Hlg0, Hrecent, Hrecent0.
Qed.

(** C8: whatever string is passed as [before_datetime], and whether or
    not it parses, the call ends as the call without a cursor does,
    leaves the same store, and logs the same records apart from those
    that report on the cursor. *)
Theorem cursor_never_applied (fromisoformat : string → option datetime)
    (before_datetime : string) (page : pyobj) (data_dir : option string)
    (fs : filesystem) :
  let r := get_timeline fromisoformat (Some before_datetime) page data_dir fs in
  let r0 := get_timeline fromisoformat None page data_dir fs in
  result r = result r0 ∧ store r = store r0 ∧
  filter (λ x, about_cursor x = false) (logged r)
  = filter (λ x, about_cursor x = false) (logged r0).
Proof.
  unfold get_timeline.
  destruct data_dir as [p|]; [|done].
  destruct (fs !! p) as [dir|]; [|done].
  apply get_timeline_in_cursor.
Qed.

(** * Calling twice *)

Lemma walk_listing_again st (d : gmap string file) v d' lg :
  walk (glob_sorted d) st d = (v, d', lg) →
  ∃ lg', walk (glob_sorted d') st d' = (v, d', lg').
Proof.
  intros Hwalk.
  rewrite (glob_sorted_filter d d' (λ name, is_Some (d' !! name))).
  - eapply walk_again; [apply NoDup_glob_sorted| |done].
    intros name Hin. by apply elem_of_glob_sorted in Hin as [_ ?].
  - intros name. split; [|tauto].
    intros Hsome. split; [|done].
    destruct (walk_frame _ _ _ _ _ _ Hwalk name) as [<-|[Hnone _]]; [done|].
    rewrite Hnone in Hsome. by destruct Hsome.
Qed.

Lemma sorted_glob_again st dir files v d' lg :
  sorted_glob dir = Some files →
  walk files st (entries dir) = (v, d', lg) →
  ∃ files' lg',
    sorted_glob {| scan := scan dir; entries := d' |} = Some files'
    ∧ walk files' st d' = (v, d', lg').
Proof.
  unfold sorted_glob. simpl. destruct (scan dir); intros [= <-] Hwalk.
  - destruct (walk_listing_again _ _ _ _ _ Hwalk) as [lg' Hagain]. eauto.
  - simpl in Hwalk. injection Hwalk as <- <- <-. by exists [], [].
Qed.

(** A call either leaves before the walk, whatever the store holds, or
    it walks and leaves a directory on which the same call walks to the
    same end. *)
Lemma get_timeline_in_again fromisoformat before_datetime page p dir
    (fs : filesystem) :
  let r1 := get_timeline_in fromisoformat before_datetime page p dir fs in
  (store r1 = fs ∧
   get_timeline_in fromisoformat before_datetime page p dir fs
   = (result r1, fs, logged r1))
  ∨ (∃ d' lg',
       store r1 = <[p := {| scan := scan dir; entries := d' |}]> fs ∧
       ∀ fs2 : filesystem,
         get_timeline_in fromisoformat before_datetime page p
           {| scan := scan dir; entries := d' |} fs2
         = (result r1, <[p := {| scan := scan dir; entries := d' |}]> fs2, lg')).
Proof.
  unfold get_timeline_in.
  destruct (negb (isinstance_int page)) eqn:Hint; [by left|].
  destruct (negb (0 <? int_value page)) eqn:Hpos; [by left|].
  destruct (parse_before fromisoformat before_datetime) as [parsed lg0].
  cbv zeta.
  destruct (sorted_glob dir) as [files|] eqn:Hglob; [|by left].
  destruct (walk files _ (entries dir)) as [[v d'] lg2] eqn:Hwalk.
  destruct (sorted_glob_again _ _ _ _ _ _ Hglob Hwalk)
    as (files' & lg' & Hglob' & Hwalk').
  right. exists d'. eexists. split; [by destruct v|].
  intros fs2. rewrite Hglob'. cbn [entries scan]. rewrite Hwalk'.
  destruct v; reflexivity.
Qed.

(** A second call, on the store the first call left, ends as the first
    did and leaves the store as it found it. *)
Lemma get_timeline_twice fromisoformat before_datetime page data_dir
    (fs : filesystem) :
  let r1 := get_timeline fromisoformat before_datetime page data_dir fs in
  let r2 := get_timeline fromisoformat before_datetime page data_dir (store r1) in
  result r2 = result r1 ∧ store r2 = store r1.
Proof.
  unfold get_timeline.
  destruct data_dir as [p|]; [|done].
  destruct (fs !! p) as [dir|] eqn:Hp; [|unfold store; simpl; by rewrite Hp].
  destruct (get_timeline_in_again fromisoformat before_datetime page p dir fs)
    as [[Hstore Heq]|(d' & lg' & Hstore & Hagain)].
  - rewrite Hstore, Hp, Heq. done.
  - rewrite Hstore, lookup_insert_eq, Hagain.
    unfold result at 1, store at 1. cbn [fst snd].
    by rewrite insert_insert_eq.
Qed.

(** C9: two calls for page 1 in a row, nothing else touching the store
    in between, end alike, and the second one changes nothing; this
    holds whether or not the first call removed unreadable segments. *)
Theorem first_page_twice (fromisoformat : string → option datetime)
    (before_datetime : option string) (data_dir : option string)
    (fs : filesystem) :
  let r1 := get_timeline fromisoformat before_datetime (PyInt 1) data_dir fs in
  let r2 :=
    get_timeline fromisoformat before_datetime (PyInt 1) data_dir (store r1) in
  result r2 = result r1 ∧ store r2 = store r1.
Proof. apply get_timeline_twice. Qed.

Example repeated_call_after_removal :
  let r1 := get_timeline no_iso None (PyInt 1) (Some data) with_corrupt_segment in
  let r2 := get_timeline no_iso None (PyInt 1) (Some data) (store r1) in
  store r1 = store_of ScanOk {[ log_yaml_1 := readable b1_b7 ]} ∧
  result r1 = Returns ["b7"; "b6"; "b5"; "b4"; "b3"]%string ∧
  result r2 = Returns ["b7"; "b6"; "b5"; "b4"; "b3"]%string ∧
  logged r1 = [DebugMostRecent; DebugFetchingPage 1 5 0 5;
               ExcUnreadableTimeline log_yaml] ∧
  logged r2 = [DebugMostRecent; DebugFetchingPage 1 5 0 5].
Proof. repeat split; by vm_compute. Qed.

(** * What a call may change *)

Lemma only_unreadable_removed_refl data_dir (fs : filesystem) lg :
  only_unreadable_removed data_dir fs fs lg.
Proof.
  intros q. destruct (fs !! q) as [dir|] eqn:Hq; [|done].
  exists dir. repeat split. by left.
Qed.

Lemma removed_as_unreadable_later (d : gmap string file) name lg1 lg2 :
  removed_as_unreadable d name lg2 →
  removed_as_unreadable d name (lg1 ++ lg2).
Proof.
  intros (f & e & ? & ? & ? & ? & ? & ?). exists f, e.
  repeat split; try done. apply elem_of_app. by right.
Qed.

Lemma sorted_glob_matches dir files name :
  sorted_glob dir = Some files → name ∈ files → matches_pattern name.
Proof.
  unfold sorted_glob. destruct (scan dir); intros [= <-] Hin.
  - by apply elem_of_glob_sorted in Hin as [? _].
  - by apply elem_of_nil in Hin.
Qed.

(** C10: whatever the arguments, a call leaves every directory other
    than [data_dir] as it was, and in [data_dir] every file as it was,
    except for files that match the pattern, were reached by the walk,
    failed to decode with a caught error and were removed for it. *)
Theorem only_unreadable_segments_removed
    (fromisoformat : string → option datetime)
    (before_datetime : option string) (page : pyobj)
    (data_dir : option string) (fs : filesystem) :
  let r := get_timeline fromisoformat before_datetime page data_dir fs in
  only_unreadable_removed data_dir fs (store r) (logged r).
Proof.
  unfold get_timeline.
  destruct data_dir as [p|]; [|apply only_unreadable_removed_refl].
  destruct (fs !! p) as [dir|] eqn:Hp; [|apply only_unreadable_removed_refl].
  unfold get_timeline_in.
  destruct (negb (isinstance_int page)); [apply only_unreadable_removed_refl|].
  destruct (negb (0 <? int_value page)); [apply only_unreadable_removed_refl|].
  destruct (parse_before fromisoformat before_datetime) as [parsed lg0].
  cbv zeta.
  destruct (sorted_glob dir) as [files|] eqn:Hglob;
    [|apply only_unreadable_removed_refl].
  destruct (walk files _ (entries dir)) as [[v d'] lg2] eqn:Hwalk.
  set (lg1 := lg0 ++ _ ++ _).
  assert (Hframe : only_unreadable_removed (Some p) fs
            (<[p := {| scan := scan dir; entries := d' |}]> fs) (lg1 ++ lg2)).
  { intros q. destruct (decide (q = p)) as [->|Hne].
    - rewrite Hp, lookup_insert_eq. eexists. split; [done|]. split; [done|].
      intros name. simpl.
      destruct (walk_frame _ _ _ _ _ _ Hwalk name)
        as [?|(Hnone & Hin & Hrm)]; [by left|right].
      repeat split; try done.
      + by eapply sorted_glob_matches.
      + by apply removed_as_unreadable_later.
    - rewrite lookup_insert_ne by done.
      destruct (fs !! q) as [dir0|]; [|done].
      exists dir0. repeat split. by left. }
  by destruct v.
Qed.

(** * What the loop keeps whatever the files hold *)

Lemma window_ok_initial (page : Z) : 1 ≤ page → window_ok (initial_state page).
Proof.
  intros Hp. exists (page - 1). unfold initial_state, page_size. simpl. lia.
Qed.

(** The loop body on any merged list: it goes on with the window still
    in order, or it returns exactly five records. *)
Lemma process_events_window (timeline_events : list event) st :
  window_ok st →
  match process_events timeline_events
          {| page_start_position := page_start_position st;
             page_end_position := page_end_position st;
             page_count := page_count st;
             events_queue := [] |} with
  | Continue st' => window_ok st'
  | Return l => length l = 5%nat
  end.
Proof.
  intros (j & Hj & Hs & He & Hq). unfold page_size in *.
  remember (Z.of_nat (length timeline_events)) as n eqn:Hn.
  destruct (Z.lt_ge_cases n (page_end_position st)) as [Hshort|Hfull].
  - rewrite process_events_short by (simpl; lia). simpl. rewrite <-Hn.
    pose proof (Z_div_mod_eq_full n 5) as Hdiv.
    assert (0 ≤ n `mod` 5 < 5) by (apply Z.mod_pos_bound; lia).
    exists (j - n `div` 5). unfold page_size. simpl.
    rewrite length_take. lia.
  - rewrite process_events_full by (simpl; lia). simpl.
    rewrite length_take, length_drop, length_reverse. lia.
Qed.

(** The loop over any files of any directory, from a window in order:
    it ends with the window in order, or returns exactly five records,
    or raises [OSError], [TypeError] or [ParserError]. *)
Lemma walk_outcome files : ∀ st (d : gmap string file) v d' lg,
  window_ok st →
  walk files st d = (v, d', lg) →
  match v with
  | Next st' => window_ok st'
  | Stop (Returns l) => length l = 5%nat
  | Stop (Raises e) =>
      e = OSError ∨ e = TypeError ∨ e = YAMLError ParserError
  end.
Proof.
  induction files as [|file_path files IH]; intros st d v d' lg Hok; simpl.
  { by intros [= <- <- <-]. }
  destruct (visit file_path st d) as [[v1 d1] lg1] eqn:Hvisit.
  assert (Hv1 : match v1 with
                | Next st' => window_ok st'
                | Stop (Returns l) => length l = 5%nat
                | Stop (Raises e) =>
                    e = OSError ∨ e = TypeError ∨ e = YAMLError ParserError
                end).
  { revert Hvisit. unfold visit.
    destruct (d !! file_path) as [f|]; [|intros [= <- _ _]; by left].
    destruct (can_open f); [|intros [= <- _ _]; by left].
    destruct (safe_load f) as [doc|e].
    - destruct doc as [l| | |]; simpl; try (intros [= <- _ _]; right; by left).
      pose proof (process_events_window (l ++ events_queue st) st Hok) as Hpe.
      destruct (process_events _ _); by intros [= <- _ _].
    - destruct e; simpl;
        try (destruct (_remove_timeline file_path d); by intros [= <- _ _]).
      intros [= <- _ _]. right. by right. }
  destruct v1 as [st1|o].
  - destruct (walk files st1 d1) as [[v2 d2] lg2] eqn:Hwalk.
    intros [= <- <- <-]. by eapply IH.
  - by intros [= <- <- <-].
Qed.

(** X1: whatever the store holds and whatever the arguments are, a
    call that returns hands back at most five records. *)
Theorem page_never_longer_than_page_size
    (fromisoformat : string → option datetime)
    (before_datetime : option string) (page : pyobj)
    (data_dir : option string) (fs : filesystem) :
  (length (returned
     (get_timeline fromisoformat before_datetime page data_dir fs))
   ≤ Z.to_nat page_size)%nat.
Proof.
  unfold returned, get_timeline.
  destruct data_dir as [p|]; [|simpl; lia].
  destruct (fs !! p) as [dir|]; [|simpl; lia].
  unfold get_timeline_in.
  destruct (isinstance_int page); [|simpl; lia]. simpl.
  destruct (Z.ltb_spec 0 (int_value page)) as [Hpos|]; [|simpl; lia]. simpl.
  destruct (parse_before fromisoformat before_datetime) as [parsed lg0].
  destruct (sorted_glob dir) as [files|]; [|simpl; lia].
  destruct (walk files _ (entries dir)) as [[v d'] lg2] eqn:Hwalk.
  pose proof (walk_outcome _ _ _ _ _ _
                (window_ok_initial (int_value page) ltac:(lia)) Hwalk) as Hv.
  destruct v as [st'|[l|e]]; unfold result; simpl.
  - destruct Hv as (j & _ & _ & _ & Hq). unfold finish, page_size in *.
    destruct (_ <? _); simpl; lia.
  - rewrite Hv. unfold page_size. lia.
  - lia.
Qed.


(** * Unreadable files and the page returned *)

(** One iteration on two directories that hold the same file under the
    name: it ends the same way and logs the same, and either both keep
    the file or both lose it, which happens to unreadable files only. *)
Lemma visit_agree file_path st (d1 d2 : gmap string file) :
  d2 !! file_path = d1 !! file_path →
  ∃ v lg (gone : bool),
    visit file_path st d1 = (v, if gone then delete file_path d1 else d1, lg)
    ∧ visit file_path st d2
      = (v, if gone then delete file_path d2 else d2, lg)
    ∧ (unreadable_at d1 file_path = true → v = Next st)
    ∧ (gone = true → unreadable_at d1 file_path = true).
Proof.
  intros Hsame. unfold visit, _remove_timeline, unreadable_at, unreadable.
  rewrite Hsame.
  destruct (d1 !! file_path) as [f|]; [|by exists (Stop (Raises OSError)), [], false].
  destruct (can_open f); [|by exists (Stop (Raises OSError)), [], false].
  destruct (safe_load f) as [doc|e]; simpl.
  - destruct (iadd doc (events_queue st)) as [timeline_events|];
      [|by exists (Stop (Raises TypeError)), [], false].
    destruct (process_events _ _) as [st'|page].
    + by exists (Next st'), [], false.
    + by exists (Stop (Returns page)), [], false.
  - destruct (caught e); [|by exists (Stop (Raises (YAMLError e))), [], false].
    destruct (can_remove f).
    + by exists (Next st), [ExcUnreadableTimeline file_path], true.
    + by exists (Next st),
        [ExcUnreadableTimeline file_path; ExcErrorRemoving file_path], false.
Qed.

(** The loop ends the same way when the unreadable files are left out
    of the list beforehand, in any directory that holds the other files
    as they are. *)
Lemma walk_skip files (skip : string → bool) : ∀ st (d1 d2 : gmap string file),
  NoDup files →
  (∀ n, n ∈ files → skip n = true → unreadable_at d1 n = true) →
  (∀ n, n ∈ files → skip n = false →
     unreadable_at d1 n = false ∧ d2 !! n = d1 !! n) →
  (walk (filter (λ n, skip n = false) files) st d2).1.1
  = (walk files st d1).1.1.
Proof.
  induction files as [|file_path files IH]; intros st d1 d2 Hnd Hskip Hkeep;
    [done|].
  apply NoDup_cons in Hnd as [Hfresh Hnd].
  assert (Hother : ∀ n, n ∈ files → n ≠ file_path) by (by intros n ? ->).
  destruct (skip file_path) eqn:Hfp.
  - (* left out of the list; skipped by the loop *)
    rewrite filter_cons_False by (by rewrite Hfp).
    destruct (visit_agree file_path st d1 d1 eq_refl)
      as (v & lg & gone & Hv & _ & Hnext & _).
    rewrite Hnext in Hv by (apply Hskip; [left|done]).
    simpl. rewrite Hv.
    destruct (walk files st (if gone then delete file_path d1 else d1))
      as [[v1 d1'] lg1] eqn:Hwalk. simpl.
    rewrite (IH st (if gone then delete file_path d1 else d1) d2 Hnd).
    + by rewrite Hwalk.
    + intros n Hin Hn. unfold unreadable_at.
      destruct gone; [rewrite lookup_delete_ne by (symmetry; by apply Hother)|];
        apply Hskip; (by right) || done.
    + intros n Hin Hn. unfold unreadable_at.
      destruct (Hkeep n ltac:(by right) Hn) as [Hun Hsame].
      destruct gone; [rewrite !lookup_delete_ne by (symmetry; by apply Hother)|];
        done.
  - (* kept: both loops visit it *)
    rewrite filter_cons_True by done.
    destruct (Hkeep file_path ltac:(left) Hfp) as [Hun Hsame].
    destruct (visit_agree file_path st d1 d2 Hsame)
      as (v & lg & gone & Hv1 & Hv2 & _ & Hgone).
    destruct gone; [by rewrite Hgone in Hun|].
    simpl. rewrite Hv1, Hv2.
    destruct v as [st'|o]; [|done].
    destruct (walk files st' d1) as [[v1 d1'] lg1] eqn:Hwalk1.
    destruct (walk (filter _ files) st' d2) as [[v2 d2'] lg2] eqn:Hwalk2.
    simpl.
    pose proof (IH st' d1 d2 Hnd) as Heq.
    rewrite Hwalk1, Hwalk2 in Heq. apply Heq.
    + intros n Hin. apply Hskip. by right.
    + intros n Hin. apply Hkeep. by right.
Qed.

Lemma lookup_without_unreadable (d : gmap string file) (name : string) :
  without_unreadable d !! name
  = if unreadable_at d name then None else d !! name.
Proof.
  unfold without_unreadable, unreadable_at. rewrite map_lookup_filter.
  destruct (d !! name) as [f|]; simpl; [|done].
  case_guard; simpl in *; by destruct (unreadable f).
Qed.

Lemma glob_sorted_without_unreadable (d : gmap string file) :
  glob_sorted (without_unreadable d)
  = filter (λ n, unreadable_at d n = false) (glob_sorted d).
Proof.
  apply glob_sorted_filter. intros name.
  rewrite lookup_without_unreadable.
  destruct (unreadable_at d name) eqn:Hun; [|intuition].
  split; [by intros [??]|]. by intros [_ ?].
Qed.

(** X3: unreadable segment files do not change what a call returns or
    raises: the call ends as it would on the store from which every
    file that opens and fails to decode with a caught error has been
    taken out beforehand. *)
Theorem unreadable_files_do_not_change_the_page
    (fromisoformat : string → option datetime)
    (before_datetime : option string) (page : pyobj)
    (data_dir : option string) (fs : filesystem) :
  result (get_timeline fromisoformat before_datetime page data_dir
            (without_unreadable_files fs))
  = result (get_timeline fromisoformat before_datetime page data_dir fs).
Proof.
  unfold get_timeline, without_unreadable_files.
  destruct data_dir as [p|]; [|done].
  rewrite lookup_fmap.
  destruct (fs !! p) as [dir|]; [|done]. simpl.
  unfold get_timeline_in.
  destruct (negb (isinstance_int page)); [done|].
  destruct (negb (0 <? int_value page)); [done|].
  destruct (parse_before fromisoformat before_datetime) as [parsed lg0].
  cbv zeta. unfold sorted_glob. cbn [scan entries].
  destruct (scan dir); [| |done].
  - rewrite glob_sorted_without_unreadable.
    pose proof (walk_skip (glob_sorted (entries dir))
                  (unreadable_at (entries dir))
                  (initial_state (int_value page))
                  (entries dir) (without_unreadable (entries dir))
                  (NoDup_glob_sorted _)) as Hwalk.
    destruct (walk (filter _ _) _ (without_unreadable (entries dir)))
      as [[v2 d2] lg2].
    destruct (walk (glob_sorted _) _ (entries dir)) as [[v1 d1] lg1].
    simpl in Hwalk. rewrite Hwalk.
    + by destruct v1.
    + done.
    + intros n _ Hn. split; [done|].
      by rewrite lookup_without_unreadable, Hn.
  - done.
Qed.

(** * What the log says about removals *)

Lemma visit_logged file_path st (d : gmap string file) v d1 lg name :
  visit file_path st d = (v, d1, lg) →
  ExcUnreadableTimeline name ∈ lg →
  name = file_path ∧ unreadable_at d name = true
  ∧ (d1 !! name = None ∨ ExcErrorRemoving name ∈ lg).
Proof.
  unfold visit, _remove_timeline.
  destruct (d !! file_path) as [f|] eqn:Hf;
    [|intros [= <- <- <-] Hin; by apply elem_of_nil in Hin].
  destruct (can_open f) eqn:Hopen;
    [|intros [= <- <- <-] Hin; by apply elem_of_nil in Hin].
  destruct (safe_load f) as [doc|e] eqn:Hload.
  - destruct (iadd doc (events_queue st));
      [|intros [= <- <- <-] Hin; by apply elem_of_nil in Hin].
    destruct (process_events _ _);
      intros [= <- <- <-] Hin; by apply elem_of_nil in Hin.
  - destruct (caught e) eqn:He;
      [|intros [= <- <- <-] Hin; by apply elem_of_nil in Hin].
    assert (Hun : unreadable_at d file_path = true).
    { unfold unreadable_at, unreadable. by rewrite Hf, Hopen, Hload. }
    destruct (can_remove f); intros [= <- <- <-] Hin.
    + apply list_elem_of_singleton in Hin as [= ->].
      split; [done|]. split; [done|]. left. apply lookup_delete_eq.
    + apply elem_of_cons in Hin as [[= ->]|Hin].
      * split; [done|]. split; [done|]. right. right. left.
      * by apply list_elem_of_singleton in Hin.
Qed.

(** Every file the loop logs as unreadable was listed, opened and
    failed to decode with a caught error, and at the end of the loop it
    is gone unless its removal is logged as failed. *)
Lemma walk_logged files : ∀ st (d : gmap string file) v d' lg name,
  walk files st d = (v, d', lg) →
  ExcUnreadableTimeline name ∈ lg →
  name ∈ files ∧ unreadable_at d name = true
  ∧ (d' !! name = None ∨ ExcErrorRemoving name ∈ lg).
Proof.
  induction files as [|file_path files IH]; intros st d v d' lg name; simpl.
  { intros [= <- <- <-] Hin. by apply elem_of_nil in Hin. }
  destruct (visit file_path st d) as [[v1 d1] lg1] eqn:Hvisit.
  destruct v1 as [st1|o].
  - destruct (walk files st1 d1) as [[v2 d2] lg2] eqn:Hwalk.
    intros [= <- <- <-] [Hin|Hin]%elem_of_app.
    + destruct (visit_logged _ _ _ _ _ _ _ Hvisit Hin) as (-> & Hun & Hgone).
      split; [left|]. split; [done|].
      destruct Hgone as [Hnone|Herr].
      * left. destruct (walk_frame _ _ _ _ _ _ Hwalk file_path)
          as [->|[? _]]; done.
      * right. apply elem_of_app. by left.
    + destruct (IH _ _ _ _ _ _ Hwalk Hin) as (Hfiles & Hun & Hgone).
      split; [by right|]. split.
      * revert Hun. unfold unreadable_at.
        destruct (visit_frame _ _ _ _ _ _ Hvisit) as [->|[-> _]]; [done|].
        destruct (decide (name = file_path)) as [->|Hne].
        -- by rewrite lookup_delete_eq.
        -- by rewrite lookup_delete_ne.
      * destruct Hgone as [?|Herr]; [by left|].
        right. apply elem_of_app. by right.
  - intros [= <- <- <-] Hin.
    destruct (visit_logged _ _ _ _ _ _ _ Hvisit Hin) as (-> & Hun & Hgone).
    split; [left|]. done.
Qed.

(** X4: a file a call logs as an unreadable timeline is a file of
    [data_dir] that matches the pattern, opened, and failed to decode
    with one of the caught errors; once the call is over the file is no
    longer in the directory, unless the log also holds the record of
    its removal failing. *)
Theorem logged_unreadable_is_removed
    (fromisoformat : string → option datetime)
    (before_datetime : option string) (page : pyobj)
    (data_dir : option string) (fs : filesystem) (name : string) :
  let r := get_timeline fromisoformat before_datetime page data_dir fs in
  ExcUnreadableTimeline name ∈ logged r →
  ∃ p dir dir',
    data_dir = Some p ∧ fs !! p = Some dir ∧ store r !! p = Some dir' ∧
    matches_pattern name ∧ unreadable_at (entries dir) name = true ∧
    (entries dir' !! name = None ∨ ExcErrorRemoving name ∈ logged r).
Proof.
  cbv zeta. unfold get_timeline.
  destruct data_dir as [p|].
  2:{ unfold logged. simpl. intros Hin.
      by apply list_elem_of_singleton in Hin. }
  destruct (fs !! p) as [dir|] eqn:Hp.
  2:{ unfold logged. simpl. intros Hin.
      by apply list_elem_of_singleton in Hin. }
  unfold get_timeline_in.
  destruct (negb (isinstance_int page));
    [intros Hin; by apply elem_of_nil in Hin|].
  destruct (negb (0 <? int_value page));
    [intros Hin; by apply elem_of_nil in Hin|].
  pose proof (parse_before_logs fromisoformat before_datetime) as Hlg.
  destruct (parse_before fromisoformat before_datetime) as [parsed lg0].
  cbn [fst snd] in Hlg. cbv zeta.
  set (lg1 := lg0 ++ _ ++ _).
  assert (Hlg1 : ExcUnreadableTimeline name ∉ lg1).
  { intros Hin. unfold lg1 in Hin.
    rewrite (assoc_L (++)) in Hin. apply elem_of_app in Hin as [Hin|Hin].
    - assert (ExcUnreadableTimeline name
              ∈ filter (λ x, about_cursor x = false)
                  (lg0 ++ match parsed with
                          | Some _ => []
                          | None => [DebugMostRecent]
                          end)) as Hf
        by (by apply list_elem_of_filter).
      rewrite Hlg in Hf. by apply elem_of_nil in Hf.
    - by apply list_elem_of_singleton in Hin. }
  destruct (sorted_glob dir) as [files|] eqn:Hglob; [|done].
  destruct (walk files _ (entries dir)) as [[v d'] lg2] eqn:Hwalk.
  assert (Hmain : ExcUnreadableTimeline name ∈ lg1 ++ lg2 →
    ∃ q dir0 dir',
      Some p = Some q ∧ fs !! q = Some dir0 ∧
      <[p := {| scan := scan dir; entries := d' |}]> fs !! q = Some dir' ∧
      matches_pattern name ∧ unreadable_at (entries dir0) name = true ∧
      (entries dir' !! name = None ∨ ExcErrorRemoving name ∈ lg1 ++ lg2)).
  { intros [Hin|Hin]%elem_of_app; [done|].
    destruct (walk_logged _ _ _ _ _ _ _ Hwalk Hin) as (Hfiles & Hun & Hgone).
    exists p, dir, {| scan := scan dir; entries := d' |}.
    rewrite lookup_insert_eq. repeat split; try done.
    - by eapply sorted_glob_matches.
    - destruct Hgone as [?|?]; [by left|right].
      apply elem_of_app. by right. }
  by destruct v.
Qed.

Lemma logged_unreadable_is_removed_witness :
  ExcUnreadableTimeline log_yaml
    ∈ logged (get_timeline no_iso None (PyInt 1) (Some data)
                with_corrupt_segment) ∧
  ∃ p dir dir',
    Some data = Some p ∧ with_corrupt_segment !! p = Some dir ∧
    store (get_timeline no_iso None (PyInt 1) (Some data)
             with_corrupt_segment) !! p = Some dir' ∧
    matches_pattern log_yaml ∧ unreadable_at (entries dir) log_yaml = true ∧
    (entries dir' !! log_yaml = None ∨
     ExcErrorRemoving log_yaml
       ∈ logged (get_timeline no_iso None (PyInt 1) (Some data)
                   with_corrupt_segment)).
Proof.
  assert (Hin : ExcUnreadableTimeline log_yaml
                  ∈ logged (get_timeline no_iso None (PyInt 1) (Some data)
                              with_corrupt_segment)).
  { replace (logged (get_timeline no_iso None (PyInt 1) (Some data)
                       with_corrupt_segment))
      with [DebugMostRecent; DebugFetchingPage 1 5 0 5;
            ExcUnreadableTimeline log_yaml]
      by (vm_compute; reflexivity).
    repeat constructor. }
  split; [exact Hin|].
  exact (logged_unreadable_is_removed no_iso None (PyInt 1) (Some data)
           with_corrupt_segment log_yaml Hin).
Defined.

(** * Files outside the pattern *)

(** The listing looks at the names that match the pattern only. *)
Lemma glob_sorted_ext (d1 d2 : gmap string file) :
  (∀ n, matches_pattern n → d2 !! n = d1 !! n) →
  glob_sorted d2 = glob_sorted d1.
Proof.
  intros Hsame. apply (StronglySorted_unique path_le).
  - apply StronglySorted_glob_sorted.
  - apply StronglySorted_glob_sorted.
  - apply NoDup_Permutation; [apply NoDup_glob_sorted..|].
    intros name. rewrite !elem_of_glob_sorted.
    split; intros [Hm Hsome]; (split; [done|]).
    + by rewrite <-(Hsame name Hm).
    + by rewrite (Hsame name Hm).
Qed.

(** The loop in two directories that hold the listed files alike ends
    the same way and logs the same. *)
Lemma walk_agree files : ∀ st (d1 d2 : gmap string file),
  NoDup files →
  (∀ n, n ∈ files → d2 !! n = d1 !! n) →
  (walk files st d2).1.1 = (walk files st d1).1.1
  ∧ (walk files st d2).2 = (walk files st d1).2.
Proof.
  induction files as [|file_path files IH]; intros st d1 d2 Hnd Hsame; [done|].
  apply NoDup_cons in Hnd as [Hfresh Hnd].
  destruct (visit_agree file_path st d1 d2 (Hsame file_path ltac:(left)))
    as (v & lg & gone & Hv1 & Hv2 & _ & _).
  simpl. rewrite Hv1, Hv2.
  destruct v as [st'|o]; [|done].
  destruct (IH st' (if gone then delete file_path d1 else d1)
              (if gone then delete file_path d2 else d2) Hnd) as [Hr Hl].
  { intros n Hin. assert (n ≠ file_path) by (by intros ->).
    destruct gone; [rewrite !lookup_delete_ne by done|];
      apply Hsame; by right. }
  destruct (walk files st' (if gone then delete file_path d1 else d1))
    as [[v1 d1'] lg1].
  destruct (walk files st' (if gone then delete file_path d2 else d2))
    as [[v2 d2'] lg2].
  simpl in *. by subst.
Qed.

(** X5: files of [data_dir] whose names do not match the pattern are
    never looked at: two stores whose data directories scan alike and
    hold the same files under the matching names give calls that end
    alike and log alike. *)
Theorem files_outside_the_pattern_are_ignored
    (fromisoformat : string → option datetime)
    (before_datetime : option string) (page : pyobj) (p : string)
    (dir1 dir2 : directory) (fs1 fs2 : filesystem) :
  fs1 !! p = Some dir1 →
  fs2 !! p = Some dir2 →
  scan dir2 = scan dir1 →
  (∀ n, matches_pattern n → entries dir2 !! n = entries dir1 !! n) →
  let r1 := get_timeline fromisoformat before_datetime page (Some p) fs1 in
  let r2 := get_timeline fromisoformat before_datetime page (Some p) fs2 in
  result r2 = result r1 ∧ logged r2 = logged r1.
Proof.
  intros Hp1 Hp2 Hscan Hsame. cbv zeta. unfold get_timeline.
  rewrite Hp1, Hp2. unfold get_timeline_in.
  destruct (negb (isinstance_int page)); [done|].
  destruct (negb (0 <? int_value page)); [done|].
  destruct (parse_before fromisoformat before_datetime) as [parsed lg0].
  cbv zeta. unfold sorted_glob. rewrite Hscan.
  destruct (scan dir1); [| |done].
  - rewrite (glob_sorted_ext _ _ Hsame).
    destruct (walk_agree (glob_sorted (entries dir1))
                (initial_state (int_value page)) (entries dir1) (entries dir2)
                (NoDup_glob_sorted _)) as [Hr Hl].
    { intros n Hin. apply Hsame. by apply elem_of_glob_sorted in Hin as [? _]. }
    destruct (walk _ _ (entries dir1)) as [[v1 d1'] lg1].
    destruct (walk _ _ (entries dir2)) as [[v2 d2'] lg2].
    simpl in Hr, Hl. subst. by destruct v1.
  - done.
Qed.

Lemma files_outside_the_pattern_are_ignored_witness :
  result (get_timeline no_iso None (PyInt 2) (Some data) with_stray_file)
  = result (get_timeline no_iso None (PyInt 2) (Some data) one_segment)
  ∧ logged (get_timeline no_iso None (PyInt 2) (Some data) with_stray_file)
    = logged (get_timeline no_iso None (PyInt 2) (Some data) one_segment).
Proof.
  refine (files_outside_the_pattern_are_ignored no_iso None (PyInt 2) data
    {| scan := ScanOk; entries := {[ log_yaml := readable r1_r7 ]} |}
    {| scan := ScanOk;
       entries := <[ "notes.txt"%string := decoding_as (Loaded DocMapping) ]>
                    {[ log_yaml := readable r1_r7 ]} |}
    one_segment with_stray_file _ _ _ _).
  - reflexivity.
  - reflexivity.
  - reflexivity.
  - intros n Hm. simpl.
    destruct (decide (n = "notes.txt"%string)) as [->|Hne].
    + vm_compute in Hm. discriminate.
    + apply lookup_insert_ne. congruence.
Defined.

(** * Pages one after the other *)

Lemma concat_pages {A} (l : list A) (size m : nat) :
  concat ((λ k : nat, take size (drop (k * size) l)) <$> seq 0 m)
  = take (m * size) l.
Proof.
  induction m as [|m IH]; [done|].
  rewrite seq_S, fmap_app, concat_app, IH. simpl.
  rewrite app_nil_r, take_take_drop. f_equal. lia.
Qed.

(** X6: in a store whose listed files all decode to sequences, the
    pages 1 to [m] that the records fill neither overlap nor leave a
    gap: put end to end they are the first [5 m] records of the
    segments read backwards, the first listed segment first. *)
Theorem full_pages_tile_the_history
    (fromisoformat : string → option datetime)
    (before_datetime : option string) (p : string) (dir : directory)
    (fs : filesystem) (segs : list (list event)) (m : nat) :
  fs !! p = Some dir →
  scan dir = ScanOk →
  Forall2 (holds_sequence (entries dir)) (glob_sorted (entries dir)) segs →
  (m * 5 ≤ length (concat segs))%nat →
  concat ((λ k : nat,
             returned (get_timeline fromisoformat before_datetime
                         (PyInt (Z.of_nat (S k))) (Some p) fs))
          <$> seq 0 m)
  = take (m * 5) (concat (reverse <$> segs)).
Proof.
  intros Hp Hscan Hsegs Hlen.
  rewrite <-(concat_pages (concat (reverse <$> segs)) 5 m).
  f_equal. apply list_fmap_ext. intros i k Hk.
  apply lookup_seq in Hk as [Hki Hk]. simpl in Hki. subst i.
  unfold returned.
  destruct (get_timeline_readable fromisoformat before_datetime
              (Z.of_nat (S k)) p dir fs segs) as [_ ->]; try done; [lia|].
  rewrite length_walked_history. unfold page_size.
  destruct (Z.leb_spec (5 * Z.of_nat (S k)) (Z.of_nat (length (concat segs))));
    [|lia].
  unfold page_of, page_size. rewrite reverse_walked_history.
  replace (Z.to_nat 5) with 5%nat by lia.
  by replace (Z.to_nat ((Z.of_nat (S k) - 1) * 5)) with (k * 5)%nat by lia.
Qed.

Lemma full_pages_tile_the_history_witness :
  concat ((λ k : nat,
             returned (get_timeline no_iso None
                         (PyInt (Z.of_nat (S k))) (Some data) two_segments))
          <$> seq 0 2)
  = take (2 * 5) (concat (reverse <$> [a1_a7; b1_b7])).
Proof.
  refine (full_pages_tile_the_history no_iso None data
    {| scan := ScanOk;
       entries := <[ log_yaml := readable a1_a7 ]>
                    {[ log_yaml_1 := readable b1_b7 ]} |}
    two_segments [a1_a7; b1_b7] 2 _ _ _ _).
  - reflexivity.
  - reflexivity.
  - change (Forall2
      (holds_sequence (<[ log_yaml := readable a1_a7 ]>
                         {[ log_yaml_1 := readable b1_b7 ]}))
      (glob_sorted (<[ log_yaml := readable a1_a7 ]>
                      {[ log_yaml_1 := readable b1_b7 ]}))
      [a1_a7; b1_b7]).
    replace (glob_sorted (<[ log_yaml := readable a1_a7 ]>
                            {[ log_yaml_1 := readable b1_b7 ]}))
      with [log_yaml; log_yaml_1] by (vm_compute; reflexivity).
    repeat constructor.
    + exists (readable a1_a7). repeat split.
    + exists (readable b1_b7). repeat split.
  - simpl. lia.
Defined.

(** * The first listed file *)

(** X7: a page that the first listed file fills on its own is served
    from that file alone: it is the window of the file read backwards,
    whatever the files listed after it hold, readable or not, and the
    store is left as it was. *)
Theorem page_filled_by_first_file
    (fromisoformat : string → option datetime)
    (before_datetime : option string) (page : Z) (p : string)
    (dir : directory) (fs : filesystem) (name : string)
    (rest : list string) (l : list event) :
  fs !! p = Some dir →
  scan dir = ScanOk →
  glob_sorted (entries dir) = name :: rest →
  holds_sequence (entries dir) name l →
  1 ≤ page →
  page_size * page ≤ Z.of_nat (length l) →
  let r := get_timeline fromisoformat before_datetime (PyInt page) (Some p) fs in
  result r
  = Returns (take (Z.to_nat page_size)
               (drop (Z.to_nat ((page - 1) * page_size)) (reverse l)))
  ∧ store r = fs.
Proof.
  intros Hp Hscan Hglob Hl Hpage Hlen. cbv zeta.
  unfold get_timeline, get_timeline_in. rewrite Hp. simpl.
  destruct (Z.ltb_spec 0 page); [simpl|lia].
  destruct (parse_before fromisoformat before_datetime) as [parsed lg0].
  unfold sorted_glob. rewrite Hscan, Hglob. simpl.
  rewrite (visit_sequence _ _ _ _ Hl). simpl. rewrite app_nil_r.
  unfold page_size in *.
  rewrite process_events_full by (simpl; lia). simpl.
  rewrite <-Hscan, (insert_same_directory _ _ _ Hp).
  unfold result, store. simpl. split; [|done].
  do 2 f_equal. lia.
Qed.

Lemma page_filled_by_first_file_witness :
  result (get_timeline no_iso None (PyInt 1) (Some data)
            truncated_second_segment)
  = Returns (take (Z.to_nat page_size)
               (drop (Z.to_nat ((1 - 1) * page_size)) (reverse a1_a7)))
  ∧ store (get_timeline no_iso None (PyInt 1) (Some data)
             truncated_second_segment)
    = truncated_second_segment.
Proof.
  refine (page_filled_by_first_file no_iso None 1 data
    {| scan := ScanOk;
       entries := <[ log_yaml := readable a1_a7 ]>
                    {[ log_yaml_1 := decoding_as (LoadRaises ParserError) ]} |}
    truncated_second_segment log_yaml [log_yaml_1] a1_a7 _ _ _ _ _ _).
  - reflexivity.
  - reflexivity.
  - vm_compute. reflexivity.
  - exists (readable a1_a7). repeat split.
  - lia.
  - vm_compute. discriminate.
Defined.

(** * Directories without segments *)

Lemma glob_sorted_nil (d : gmap string file) :
  (∀ n, matches_pattern n → d !! n = None) → glob_sorted d = [].
Proof.
  intros Hnone. destruct (glob_sorted d) as [|name files] eqn:Hglob; [done|].
  assert (name ∈ glob_sorted d) as [Hm [f Hf]]%elem_of_glob_sorted
    by (rewrite Hglob; left).
  rewrite (Hnone name Hm) in Hf. done.
Qed.

(** X8: when [data_dir] exists and holds no file whose name matches the
    pattern, every call with a positive integer page returns the empty
    sequence and leaves the store as it was, provided the scan does not
    fail. *)
Theorem no_segment_file_gives_empty_page
    (fromisoformat : string → option datetime)
    (before_datetime : option string) (page : pyobj) (p : string)
    (dir : directory) (fs : filesystem) :
  fs !! p = Some dir →
  scan dir ≠ ScanFails →
  (∀ n, matches_pattern n → entries dir !! n = None) →
  positive_int page →
  let r := get_timeline fromisoformat before_datetime page (Some p) fs in
  result r = Returns [] ∧ store r = fs.
Proof.
  intros Hp Hscan Hnone [Hint Hpos]%positive_int_asserts. cbv zeta.
  unfold get_timeline, get_timeline_in. rewrite Hp, Hint. simpl.
  destruct (Z.ltb_spec 0 (int_value page)); [simpl|lia].
  destruct (parse_before fromisoformat before_datetime) as [parsed lg0].
  assert (Hglob : sorted_glob dir = Some []).
  { unfold sorted_glob. destruct (scan dir); [|done..].
    by rewrite (glob_sorted_nil _ Hnone). }
  rewrite Hglob. simpl. rewrite (insert_same_directory _ _ _ Hp).
  unfold result, store, finish. simpl. by destruct (_ <? _).
Qed.

Lemma no_segment_file_gives_empty_page_witness :
  result (get_timeline no_iso None (PyInt 1) (Some data) no_segment)
  = Returns []
  ∧ store (get_timeline no_iso None (PyInt 1) (Some data) no_segment)
    = no_segment.
Proof.
  refine (no_segment_file_gives_empty_page no_iso None (PyInt 1) data
    {| scan := ScanOk;
       entries := {[ "notes.txt"%string := decoding_as (Loaded DocMapping) ]} |}
    no_segment _ _ _ _).
  - reflexivity.
  - discriminate.
  - intros n Hm. simpl.
    destruct (decide (n = "notes.txt"%string)) as [->|Hne].
    + vm_compute in Hm. discriminate.
    + apply lookup_singleton_ne. congruence.
  - simpl. lia.
Defined.

(** * Pages past the end *)

(** X9: in a store whose listed files all decode to sequences, a page
    past the last one comes back empty exactly when it exceeds the
    number of listed files by more than two or the number of records
    is a multiple of five; otherwise the leftover queue is returned. *)
Theorem page_past_the_end_empty_iff
    (fromisoformat : string → option datetime)
    (before_datetime : option string) (page : Z) (p : string)
    (dir : directory) (fs : filesystem) (segs : list (list event)) :
  fs !! p = Some dir →
  scan dir = ScanOk →
  Forall2 (holds_sequence (entries dir)) (glob_sorted (entries dir)) segs →
  1 ≤ page →
  last_page (Z.of_nat (length (concat segs))) < page →
  result (get_timeline fromisoformat before_datetime (PyInt page) (Some p) fs)
    = Returns []
  ↔ (Z.of_nat (length segs) + 2 < page
     ∨ Z.of_nat (length (concat segs)) `mod` page_size = 0).
Proof.
  intros Hp Hscan Hsegs Hpage Hlast.
  rewrite <-length_walked_history in Hlast |- *.
  rewrite (get_timeline_past_the_end fromisoformat before_datetime page
             p dir fs segs Hp Hscan Hsegs Hpage Hlast).
  set (N := Z.of_nat (length (walked_history segs))).
  assert (0 ≤ N `mod` page_size < page_size)
    by (apply Z.mod_pos_bound; unfold page_size; lia).
  assert (N `mod` page_size ≤ N)
    by (apply Z.mod_le; unfold page_size; lia).
  destruct (Z.ltb_spec (Z.of_nat (length segs) + 2) page); [by intuition|].
  split.
  - intros [= Htake]. right.
    apply (f_equal length) in Htake. rewrite length_take in Htake.
    simpl in Htake. unfold N in *. lia.
  - intros [?|Hzero]; [lia|]. by rewrite Hzero.
Qed.

Lemma page_past_the_end_empty_iff_witness :
  result (get_timeline no_iso None (PyInt 4) (Some data) one_segment)
    = Returns []
  ↔ (Z.of_nat (length [r1_r7]) + 2 < 4
     ∨ Z.of_nat (length (concat [r1_r7])) `mod` page_size = 0).
Proof.
  refine (page_past_the_end_empty_iff no_iso None 4 data
    {| scan := ScanOk; entries := {[ log_yaml := readable r1_r7 ]} |}
    one_segment [r1_r7] _ _ _ _ _).
  - reflexivity.
  - reflexivity.
  - change (Forall2 (holds_sequence {[ log_yaml := readable r1_r7 ]})
              (glob_sorted {[ log_yaml := readable r1_r7 ]}) [r1_r7]).
    replace (glob_sorted {[ log_yaml := readable r1_r7 ]})
      with [log_yaml] by (vm_compute; reflexivity).
    repeat constructor. exists (readable r1_r7). repeat split.
  - lia.
  - vm_compute. reflexivity.
Defined.

(** * Calling again, removing again *)

(** X10: for any arguments, a call repeated with the same arguments on
    the store the first call left ends as the first call did, with the
    same return value or the same exception, and changes nothing
    more. *)
Theorem same_call_again_changes_nothing
    (fromisoformat : string → option datetime)
    (before_datetime : option string) (page : pyobj)
    (data_dir : option string) (fs : filesystem) :
  let r1 := get_timeline fromisoformat before_datetime page data_dir fs in
  let r2 :=
    get_timeline fromisoformat before_datetime page data_dir (store r1) in
  result r2 = result r1 ∧ store r2 = store r1.
Proof. apply get_timeline_twice. Qed.

(** X11: [_remove_timeline] leaves every other file alone, and a second
    attempt on the same path never removes anything and always logs that
    the removal failed: either the file is already gone or it is one
    that cannot be removed. *)
Theorem remove_timeline_again (file_path : string) (d : gmap string file) :
  let r := _remove_timeline file_path d in
  (∀ n, n ≠ file_path → r.1 !! n = d !! n) ∧
  _remove_timeline file_path r.1 = (r.1, [ExcErrorRemoving file_path]).
Proof.
  unfold _remove_timeline.
  destruct (d !! file_path) as [f|] eqn:Hf; simpl.
  - destruct (can_remove f) eqn:Hrm; simpl.
    + split; [intros n Hn; by apply lookup_delete_ne|].
      by rewrite lookup_delete_eq.
    + split; [done|]. by rewrite Hf, Hrm.
  - split; [done|]. by rewrite Hf.
Qed.

(** * Where the returned records come from *)

Lemma elem_of_py_slice {A} (l : list A) (start stop step : Z) (x : A) :
  x ∈ py_slice l start stop step → x ∈ l.
Proof.
  unfold py_slice. intros (i & _ & Hi)%list_elem_of_omap.
  by eapply list_elem_of_lookup_2.
Qed.

(** Whatever the window is, the loop body keeps or returns records of
    the merged list only. *)
Lemma process_events_elem (timeline_events : list event) st :
  match process_events timeline_events st with
  | Continue st' => ∀ x, x ∈ events_queue st' → x ∈ timeline_events
  | Return page => ∀ x, x ∈ page → x ∈ timeline_events
  end.
Proof.
  unfold process_events.
  destruct (_ <? page_end_position st).
  - simpl. destruct (0 <? _); intros x Hx.
    + by eapply elem_of_py_slice.
    + by apply elem_of_nil in Hx.
  - destruct (_ <=? _); intros x Hx.
    + by apply elem_of_nil in Hx.
    + by eapply elem_of_py_slice.
Qed.

Lemma walk_elem (P : event → Prop) files : ∀ st (d : gmap string file) v d' lg,
  (∀ name l x, name ∈ files → holds_sequence d name l → x ∈ l → P x) →
  (∀ x, x ∈ events_queue st → P x) →
  walk files st d = (v, d', lg) →
  match v with
  | Next st' => ∀ x, x ∈ events_queue st' → P x
  | Stop (Returns page) => ∀ x, x ∈ page → P x
  | Stop (Raises _) => True
  end.
Proof.
  induction files as [|file_path files IH]; intros st d v d' lg Hfiles Hq; simpl.
  { by intros [= <- <- <-]. }
  destruct (visit file_path st d) as [[v1 d1] lg1] eqn:Hvisit.
  assert (Hv1 : match v1 with
                | Next st' => ∀ x, x ∈ events_queue st' → P x
                | Stop (Returns page) => ∀ x, x ∈ page → P x
                | Stop (Raises _) => True
                end).
  { revert Hvisit. unfold visit, _remove_timeline.
    destruct (d !! file_path) as [f|] eqn:Hf; [|by intros [= <- _ _]].
    destruct (can_open f) eqn:Hopen; [|by intros [= <- _ _]].
    destruct (safe_load f) as [doc|e] eqn:Hload.
    - destruct doc as [l| | |]; simpl; try by intros [= <- _ _].
      assert (Hte : ∀ x, x ∈ l ++ events_queue st → P x).
      { intros x [Hx|Hx]%elem_of_app; [|by apply Hq].
        apply (Hfiles file_path l x); [left| |done]. by exists f. }
      pose proof (process_events_elem (l ++ events_queue st)
        {| page_start_position := page_start_position st;
           page_end_position := page_end_position st;
           page_count := page_count st;
           events_queue := [] |}) as Hpe.
      destruct (process_events _ _); intros [= <- _ _]; naive_solver.
    - destruct (caught e); [|by intros [= <- _ _]].
      destruct (can_remove f); by intros [= <- _ _]. }
  destruct v1 as [st1|o]; [|by intros [= <- <- <-]].
  destruct (walk files st1 d1) as [[v2 d2] lg2] eqn:Hwalk.
  intros [= <- <- <-]. eapply IH; [|done|done].
  intros name l x Hin (f & Hf & Hopen & Hload) Hx.
  apply (Hfiles name l x); [by right| |done].
  exists f. split; [|done].
  destruct (visit_frame _ _ _ _ _ _ Hvisit) as [->|[-> _]]; [done|].
  by apply lookup_delete_Some in Hf as [_ ?].
Qed.

(** X12: every record a call returns is a record of a segment file of
    [data_dir]: a file whose name matches the pattern, which opens and
    decodes to a sequence holding that record. *)
Theorem returned_records_are_stored
    (fromisoformat : string → option datetime)
    (before_datetime : option string) (page : pyobj)
    (data_dir : option string) (fs : filesystem) (x : event) :
  x ∈ returned (get_timeline fromisoformat before_datetime page data_dir fs) →
  ∃ p dir name l,
    data_dir = Some p ∧ fs !! p = Some dir ∧ matches_pattern name ∧
    holds_sequence (entries dir) name l ∧ x ∈ l.
Proof.
  unfold returned, get_timeline.
  destruct data_dir as [p|]; [|intros Hx; by apply elem_of_nil in Hx].
  destruct (fs !! p) as [dir|] eqn:Hp;
    [|intros Hx; by apply elem_of_nil in Hx].
  unfold get_timeline_in.
  destruct (negb (isinstance_int page));
    [intros Hx; by apply elem_of_nil in Hx|].
  destruct (negb (0 <? int_value page));
    [intros Hx; by apply elem_of_nil in Hx|].
  destruct (parse_before fromisoformat before_datetime) as [parsed lg0].
  cbv zeta.
  destruct (sorted_glob dir) as [files|] eqn:Hglob;
    [|intros Hx; by apply elem_of_nil in Hx].
  destruct (walk files _ (entries dir)) as [[v d'] lg2] eqn:Hwalk.
  pose proof (walk_elem
    (λ y, ∃ q dir0 name l,
       Some p = Some q ∧ fs !! q = Some dir0 ∧ matches_pattern name ∧
       holds_sequence (entries dir0) name l ∧ y ∈ l)
    files (initial_state (int_value page)) (entries dir) v d' lg2) as Hv.
  specialize (Hv ltac:(intros name l y Hin Hl Hy; exists p, dir, name, l;
                       repeat split; try done;
                       by eapply sorted_glob_matches)
                 ltac:(intros y Hy; by apply elem_of_nil in Hy) Hwalk).
  destruct v as [st'|[l|e]]; unfold result; simpl.
  - unfold finish. destruct (_ <? _); [intros Hx; by apply elem_of_nil in Hx|].
    apply Hv.
  - apply Hv.
  - intros Hx. by apply elem_of_nil in Hx.
Qed.

Lemma returned_records_are_stored_witness :
  ("r7"%string : event)
    ∈ returned (get_timeline no_iso None (PyInt 1) (Some data) one_segment) ∧
  ∃ p dir name l,
    Some data = Some p ∧ one_segment !! p = Some dir ∧ matches_pattern name ∧
    holds_sequence (entries dir) name l ∧ ("r7"%string : event) ∈ l.
Proof.
  assert (Hin : ("r7"%string : event)
                  ∈ returned (get_timeline no_iso None (PyInt 1) (Some data)
                                one_segment)).
  { replace (returned (get_timeline no_iso None (PyInt 1) (Some data)
                         one_segment))
      with ["r7"; "r6"; "r5"; "r4"; "r3"]%string by (vm_compute; reflexivity).
    left. }
  split; [exact Hin|].
  exact (returned_records_are_stored no_iso None (PyInt 1) (Some data)
           one_segment "r7"%string Hin).
Defined.
